(** * MQTT test client: the message interpreter and the connection manager

    A shallow embedding of [src/App.jsx]: the JavaScript built-ins the
    component relies on ([toLowerCase], [includes], [split], [trim],
    [Number], [isNaN], [startsWith]), the React state of [App], and the
    three closures [disconnect], [connect] and [parseMessage].

    Strings are sequences of code units.  The code units modelled are the
    256 of the Latin-1 range (U+0000 to U+00FF), which holds every
    character the component gives a meaning to: the separators, the
    keywords, the digits, and the white space of that range. *)

From Stdlib Require Import String.
From Stdlib Require Import List Ascii ZArith QArith Qpower Bool Lia Sorted.
From Stdlib Require DecimalString DecimalPos.
Import ListNotations.

Local Open Scope Z_scope.
Local Open Scope list_scope.

(* ================================================================= *)
(** ** JavaScript strings *)

Definition jsstring := list ascii.

(** A string literal of the source. *)
Definition lit (s : String.string) : jsstring := String.list_ascii_of_string s.

Definition code (c : ascii) : Z := Z.of_N (N_of_ascii c).

Definition unit_of_code (n : Z) : ascii := ascii_of_N (Z.to_N n).

(** [String.prototype.toLowerCase] on one code unit: the basic Latin
    capitals and the Latin-1 capitals (U+00C0 to U+00DE, the multiplication
    sign U+00D7 apart) move 32 places up; every other unit is kept. *)
Definition lowerUnit (c : ascii) : ascii :=
  let n := code c in
  if ((65 <=? n) && (n <=? 90))
     || ((192 <=? n) && (n <=? 222) && negb (n =? 215))
  then unit_of_code (n + 32)
  else c.

Definition toLowerCase (s : jsstring) : jsstring := map lowerUnit s.

(** [s.startsWith(p)] *)
Fixpoint startsWith (s p : jsstring) : bool :=
  match p, s with
  | [], _ => true
  | _ :: _, [] => false
  | a :: p', b :: s' => Ascii.eqb b a && startsWith s' p'
  end.

(** [s.includes(k)]: [k] occurs at some position of [s]. *)
Fixpoint includes (s k : jsstring) : bool :=
  startsWith s k
  || match s with
     | [] => false
     | _ :: s' => includes s' k
     end.

(** [s.split(sep)] for a separator of one code unit.  The result is never
    empty: a string without the separator is returned whole. *)
Fixpoint split (s : jsstring) (sep : ascii) : list jsstring :=
  match s with
  | [] => [[]]
  | c :: s' =>
      if Ascii.eqb c sep then [] :: split s' sep
      else match split s' sep with
           | [] => [[c]]
           | seg :: segs => (c :: seg) :: segs
           end
  end.

(** White space and line terminators of ECMAScript that lie in the
    Latin-1 range: TAB, LF, VT, FF, CR, SP and NBSP. *)
Definition isWhiteSpace (c : ascii) : bool :=
  let n := code c in
  ((9 <=? n) && (n <=? 13)) || (n =? 32) || (n =? 160).

Fixpoint trimStart (s : jsstring) : jsstring :=
  match s with
  | [] => []
  | c :: s' => if isWhiteSpace c then trimStart s' else s
  end.

Definition trimEnd (s : jsstring) : jsstring := rev (trimStart (rev s)).

(** [s.trim()] *)
Definition trim (s : jsstring) : jsstring := trimEnd (trimStart s).

(* ================================================================= *)
(** ** JavaScript numbers *)

(** A Number is an IEEE 754 binary64 value.  [Finite neg m e] stands for
    (-1)^neg * m * 2^e with 0 <= m < 2^53 and -1074 <= e <= 971; both
    zeros have the least exponent. *)
Inductive JSNumber : Type :=
| NaN
| Infinity (neg : bool)
| Finite (neg : bool) (m : Z) (e : Z).

Definition positiveZero : JSNumber := Finite false 0 (-1074).

(** [isNaN(x)] for an argument that is already a Number. *)
Definition isNaN (x : JSNumber) : bool :=
  match x with
  | NaN => true
  | _ => false
  end.

(** The real number a finite Number denotes. *)
Definition numberValue (x : JSNumber) : option Q :=
  match x with
  | Finite neg m e =>
      Some ((if neg then - inject_Z m else inject_Z m) * Qpower (2 # 1) e)%Q
  | _ => None
  end.

(** The quotient num / den rounded to the nearest integer, ties to the
    even one. *)
Definition roundHalfEven (num den : Z) : Z :=
  let q := num / den in
  let r := num mod den in
  match 2 * r ?= den with
  | Lt => q
  | Gt => q + 1
  | Eq => if Z.even q then q else q + 1
  end.

(** n / (d * 2^e) as a fraction of integers. *)
Definition scaled (n d e : Z) : Z * Z :=
  if 0 <=? e then (n, d * 2 ^ e) else (n * 2 ^ (- e), d).

(** The Number nearest to the rational n / d (0 <= n, 0 < d) with the
    sign [neg]: the exponent is chosen so that the significand has 53
    bits (or is the least exponent, for subnormals), the significand is
    rounded to nearest, ties to even, and a value past the largest finite
    Number becomes an infinity.  This is the correctly rounded conversion
    that engines perform; the latitude ECMAScript leaves them past twenty
    significant digits is not used. *)
Definition toDouble (neg : bool) (n d : Z) : JSNumber :=
  if n =? 0 then Finite neg 0 (-1074)
  else
    let e0 := Z.max (Z.log2 n - Z.log2 d - 53) (-1074) in
    let '(a0, b0) := scaled n d e0 in
    let e1 := if 2 ^ 53 <=? a0 / b0 then e0 + 1 else e0 in
    let '(a1, b1) := scaled n d e1 in
    let m := roundHalfEven a1 b1 in
    let '(m', e') := if m =? 2 ^ 53 then (2 ^ 52, e1 + 1) else (m, e1) in
    if 971 <? e' then Infinity neg else Finite neg m' e'.

(** The Number for a mathematical integer. *)
Definition numberOfZ (n : Z) : JSNumber :=
  toDouble (n <? 0) (Z.abs n) 1.

(** *** StringToNumber *)

Definition isDigit (c : ascii) : bool :=
  let n := code c in (48 <=? n) && (n <=? 57).

(** The value of a digit of a base up to 16, either letter case. *)
Definition digitValue (c : ascii) : option Z :=
  let n := code c in
  if (48 <=? n) && (n <=? 57) then Some (n - 48)
  else if (97 <=? n) && (n <=? 102) then Some (n - 87)
  else if (65 <=? n) && (n <=? 70) then Some (n - 55)
  else None.

Definition isDigitOf (base : Z) (c : ascii) : bool :=
  match digitValue c with
  | Some v => v <? base
  | None => false
  end.

Definition digitOr0 (c : ascii) : Z :=
  match digitValue c with
  | Some v => v
  | None => 0
  end.

(** The integer written by the digits [ds] in [base], most significant
    digit first. *)
Definition digitsValue (base : Z) (ds : jsstring) : Z :=
  fold_left (fun acc c => acc * base + digitOr0 c) ds 0.

(** The longest prefix of [s] made of units satisfying [p], and the rest. *)
Fixpoint span (p : ascii -> bool) (s : jsstring) : jsstring * jsstring :=
  match s with
  | [] => ([], [])
  | c :: s' =>
      if p c then let '(a, b) := span p s' in (c :: a, b)
      else ([], s)
  end.

Definition isEmpty (s : jsstring) : bool :=
  match s with
  | [] => true
  | _ => false
  end.

(** NonDecimalIntegerLiteral: [0x], [0o] or [0b] (the letter in either
    case) followed by one digit or more of that base and nothing else. *)
Definition nonDecimalBase (c : ascii) : option Z :=
  if Ascii.eqb c "x" || Ascii.eqb c "X" then Some 16
  else if Ascii.eqb c "o" || Ascii.eqb c "O" then Some 8
  else if Ascii.eqb c "b" || Ascii.eqb c "B" then Some 2
  else None.

Definition parseNonDecimal (s : jsstring) : option JSNumber :=
  match s with
  | z :: c :: ds =>
      if Ascii.eqb z "0" then
        match nonDecimalBase c with
        | Some base =>
            if negb (isEmpty ds) && forallb (isDigitOf base) ds
            then Some (numberOfZ (digitsValue base ds))
            else None
        | None => None
        end
      else None
  | _ => None
  end.

(** An optional sign. *)
Definition parseSign (s : jsstring) : bool * jsstring :=
  match s with
  | c :: s' =>
      if Ascii.eqb c "-" then (true, s')
      else if Ascii.eqb c "+" then (false, s')
      else (false, s)
  | [] => (false, s)
  end.

(** ExponentPart, optional: [e] or [E], an optional sign, one digit or
    more; nothing may follow.  The result is the exponent of ten. *)
Definition parseExponent (s : jsstring) : option Z :=
  match s with
  | [] => Some 0
  | c :: s' =>
      if Ascii.eqb c "e" || Ascii.eqb c "E" then
        let '(neg, s'') := parseSign s' in
        let '(ds, rest) := span isDigit s'' in
        if negb (isEmpty ds) && isEmpty rest
        then Some (if neg then - digitsValue 10 ds else digitsValue 10 ds)
        else None
      else None
  end.

(** The Number nearest to n * 10^k. *)
Definition decimalToDouble (neg : bool) (n k : Z) : JSNumber :=
  if 0 <=? k then toDouble neg (n * 10 ^ k) 1
  else toDouble neg n (10 ^ (- k)).

(** StrUnsignedDecimalLiteral: [Infinity], or digits with an optional
    fraction and an optional exponent, one digit at least before the
    exponent. *)
Definition parseUnsignedDecimal (neg : bool) (s : jsstring) : option JSNumber :=
  if list_eq_dec ascii_dec s (lit "Infinity") then Some (Infinity neg)
  else
    let '(ip, r1) := span isDigit s in
    let '(fp, r2) :=
      match r1 with
      | c :: r =>
          if Ascii.eqb c "." then span isDigit r else ([], r1)
      | [] => ([], r1)
      end in
    if isEmpty ip && isEmpty fp then None
    else
      match parseExponent r2 with
      | Some ex =>
          Some (decimalToDouble neg (digitsValue 10 (ip ++ fp))
                                (ex - Z.of_nat (List.length fp)))
      | None => None
      end.

(** StrNumericLiteral *)
Definition parseNumeric (s : jsstring) : option JSNumber :=
  match parseNonDecimal s with
  | Some x => Some x
  | None => let '(neg, s') := parseSign s in parseUnsignedDecimal neg s'
  end.

(** [Number(s)] for a string argument: white space is stripped at both
    ends, the empty string is +0, a numeric literal is its rounded value
    and anything else is NaN. *)
Definition Number (s : jsstring) : JSNumber :=
  let t := trim s in
  if isEmpty t then positiveZero
  else match parseNumeric t with
       | Some x => x
       | None => NaN
       end.

(* ================================================================= *)
(** ** The state of the component *)

(** A [Date] is its time value, in milliseconds since the epoch. *)
Definition Date := Z.

(** The object literal built by [parseMessage]. *)
Record Sample : Type := mkSample {
  time : Date;
  min : JSNumber;
  max : JSNumber;
  average : JSNumber
}.

(** A client object returned by [mqtt.connect]. *)
Definition Client := nat.

(** The calls made into the MQTT library, in the order made.  For
    [ClientEnd], [threw] tells whether the call raised. *)
Inductive LibCall : Type :=
| MqttConnect (url : jsstring) (c : Client)
| ClientEnd (c : Client) (force : bool) (threw : bool)
| ClientSubscribe (c : Client) (tp : jsstring).

(** The [useState] cells and the [useRef] cell of [App], together with
    the trace of library calls and the listeners registered by [connect]
    (each with the [topic] its closure captured). *)
Record App : Type := mkApp {
  brokerUrl : jsstring;
  topic : jsstring;
  isConnected : bool;
  status : jsstring;
  latestRaw : jsstring;
  latestTopic : jsstring;
  latestTime : option Date;
  messages : list Sample;
  clientRef : option Client;
  libCalls : list LibCall;
  listeners : list (Client * jsstring)
}.

Definition initialApp : App :=
  {| brokerUrl := []; topic := []; isConnected := false;
     status := lit "Idle"; latestRaw := []; latestTopic := [];
     latestTime := None; messages := []; clientRef := None;
     libCalls := []; listeners := [] |}.

Definition withBrokerUrl (v : jsstring) (w : App) : App :=
  mkApp v (topic w) (isConnected w) (status w) (latestRaw w) (latestTopic w)
        (latestTime w) (messages w) (clientRef w) (libCalls w) (listeners w).

Definition withTopic (v : jsstring) (w : App) : App :=
  mkApp (brokerUrl w) v (isConnected w) (status w) (latestRaw w)
        (latestTopic w) (latestTime w) (messages w) (clientRef w)
        (libCalls w) (listeners w).

Definition withIsConnected (v : bool) (w : App) : App :=
  mkApp (brokerUrl w) (topic w) v (status w) (latestRaw w) (latestTopic w)
        (latestTime w) (messages w) (clientRef w) (libCalls w) (listeners w).

Definition withStatus (v : jsstring) (w : App) : App :=
  mkApp (brokerUrl w) (topic w) (isConnected w) v (latestRaw w)
        (latestTopic w) (latestTime w) (messages w) (clientRef w)
        (libCalls w) (listeners w).

Definition withLatestRaw (v : jsstring) (w : App) : App :=
  mkApp (brokerUrl w) (topic w) (isConnected w) (status w) v (latestTopic w)
        (latestTime w) (messages w) (clientRef w) (libCalls w) (listeners w).

Definition withLatestTopic (v : jsstring) (w : App) : App :=
  mkApp (brokerUrl w) (topic w) (isConnected w) (status w) (latestRaw w) v
        (latestTime w) (messages w) (clientRef w) (libCalls w) (listeners w).

Definition withLatestTime (v : option Date) (w : App) : App :=
  mkApp (brokerUrl w) (topic w) (isConnected w) (status w) (latestRaw w)
        (latestTopic w) v (messages w) (clientRef w) (libCalls w)
        (listeners w).

Definition withMessages (v : list Sample) (w : App) : App :=
  mkApp (brokerUrl w) (topic w) (isConnected w) (status w) (latestRaw w)
        (latestTopic w) (latestTime w) v (clientRef w) (libCalls w)
        (listeners w).

Definition withClientRef (v : option Client) (w : App) : App :=
  mkApp (brokerUrl w) (topic w) (isConnected w) (status w) (latestRaw w)
        (latestTopic w) (latestTime w) (messages w) v (libCalls w)
        (listeners w).

Definition withLibCalls (v : list LibCall) (w : App) : App :=
  mkApp (brokerUrl w) (topic w) (isConnected w) (status w) (latestRaw w)
        (latestTopic w) (latestTime w) (messages w) (clientRef w) v
        (listeners w).

Definition withListeners (v : list (Client * jsstring)) (w : App) : App :=
  mkApp (brokerUrl w) (topic w) (isConnected w) (status w) (latestRaw w)
        (latestTopic w) (latestTime w) (messages w) (clientRef w)
        (libCalls w) v.

(* ================================================================= *)
(** ** Effects: state and exceptions *)

Inductive JSError : Type :=
| TypeError
| LibraryError.

(** How a call ends: it returns a value, or an exception leaves it.  Both
    carry the state reached. *)
Inductive Outcome (A : Type) : Type :=
| Returned (a : A) (w : App)
| Thrown (e : JSError) (w : App).

Arguments Returned {A} a w.
Arguments Thrown {A} e w.

Definition Eff (A : Type) : Type := App -> Outcome A.

Definition ret {A : Type} (a : A) : Eff A := fun w => Returned a w.

Definition throw {A : Type} (e : JSError) : Eff A := fun w => Thrown e w.

Definition bind {A B : Type} (m : Eff A) (k : A -> Eff B) : Eff B :=
  fun w =>
    match m w with
    | Returned a w' => k a w'
    | Thrown e w' => Thrown e w'
    end.

Notation "x <- m ;; k" := (bind m (fun x => k))
  (at level 61, m at next level, right associativity).
Notation "m ;;; k" := (bind m (fun _ => k))
  (at level 61, right associativity).

(** [try { body } catch { handler }] *)
Definition tryCatch (body handler : Eff unit) : Eff unit :=
  fun w =>
    match body w with
    | Returned a w' => Returned a w'
    | Thrown _ w' => handler w'
    end.

Definition get {A : Type} (f : App -> A) : Eff A := fun w => Returned (f w) w.

Definition modify (f : App -> App) : Eff unit := fun w => Returned tt (f w).

(** The state a call leaves behind, however it ends. *)
Definition stateOf {A : Type} (o : Outcome A) : App :=
  match o with
  | Returned _ w => w
  | Thrown _ w => w
  end.

(** Reading a property of, or calling a method on, a value that may be
    [undefined]: a TypeError when it is. *)
Definition member {A : Type} (o : option A) : Eff A :=
  match o with
  | Some a => ret a
  | None => throw TypeError
  end.

Definition setIsConnected (v : bool) : Eff unit := modify (withIsConnected v).
Definition setStatus (v : jsstring) : Eff unit := modify (withStatus v).
Definition setLatestRaw (v : jsstring) : Eff unit := modify (withLatestRaw v).
Definition setLatestTopic (v : jsstring) : Eff unit :=
  modify (withLatestTopic v).
Definition setLatestTime (v : option Date) : Eff unit :=
  modify (withLatestTime v).

(** [setMessages(updater)]: the updater is applied to the latest value. *)
Definition setMessages (updater : list Sample -> list Sample) : Eff unit :=
  modify (fun w => withMessages (updater (messages w)) w).

(* ================================================================= *)
(** ** The message interpreter *)

(** The updater of line 188, [prev => [...prev, parsedMessage]]. *)
Definition append (prev : list Sample) (parsedMessage : Sample) : list Sample :=
  prev ++ [parsedMessage].

(** [Number(messageValues[i].split(',')[1].trim())], the expression of
    lines 178 to 180. *)
Definition fieldNumber (messageValues : list jsstring) (i : nat)
  : Eff JSNumber :=
  segment <- member (nth_error messageValues i) ;;
  value <- member (nth_error (split segment ",") 1) ;;
  ret (Number (trim value)).

(** The acceptance test of line 176. *)
Definition hasKeywords (message : jsstring) : bool :=
  let messageLower := toLowerCase message in
  includes messageLower (lit "average")
  && includes messageLower (lit "min")
  && includes messageLower (lit "max").

(** [parseMessage(message)], lines 174 to 191.  [now] is the value of the
    [new Date()] of line 183. *)
Definition parseMessage (now : Date) (message : jsstring) : Eff unit :=
  if hasKeywords message then
    let messageValues := split (toLowerCase message) ";" in
    messageAverage <- fieldNumber messageValues 0 ;;
    messageMin <- fieldNumber messageValues 1 ;;
    messageMax <- fieldNumber messageValues 2 ;;
    if negb (isNaN messageAverage) && negb (isNaN messageMin)
       && negb (isNaN messageMax)
    then
      let parsedMessage :=
        {| time := now; min := messageMin; max := messageMax;
           average := messageAverage |} in
      setMessages (fun prev => append prev parsedMessage)
    else ret tt
  else ret tt.

(** An integer rendered the way a template literal renders it. *)
Definition text (n : Z) : jsstring :=
  lit (DecimalString.NilZero.string_of_int (Z.to_int n)).

(** [testMessage()], lines 193 to 199, for the three integers drawn
    there. *)
Definition testMessage (now : Date) (avgTest minTest maxTest : Z)
  : Eff unit :=
  parseMessage now
    (lit "Average, " ++ text avgTest ++ lit "; Min, " ++ text minTest
       ++ lit "; Max, " ++ text maxTest ++ lit ";").

(* ================================================================= *)
(** ** The connection manager *)

(** [mqtt.connect(brokerUrl, options)]: the library is taken to hand back
    a client not seen before; the options (clean session, the two fixed
    delays, a random client identifier) play no part in what follows. *)
Definition mqttConnect (url : jsstring) : Eff Client :=
  fun w =>
    let c := List.length (libCalls w) in
    Returned c (withLibCalls (libCalls w ++ [MqttConnect url c]) w).

(** [c.end(force)].  Whether the library raises is its own affair:
    [threw] is what it does at this call. *)
Definition clientEnd (c : Client) (force : bool) (threw : bool) : Eff unit :=
  fun w =>
    let w' := withLibCalls (libCalls w ++ [ClientEnd c force threw]) w in
    if threw then Thrown LibraryError w' else Returned tt w'.

(** [client.subscribe(topic, { qos: 0 }, callback)] *)
Definition clientSubscribe (c : Client) (tp : jsstring) : Eff unit :=
  modify (fun w => withLibCalls (libCalls w ++ [ClientSubscribe c tp]) w).

(** [disconnect()], lines 110 to 122. *)
Definition disconnect (endThrows : bool) : Eff unit :=
  c <- get clientRef ;;
  match c with
  | Some client =>
      tryCatch (clientEnd client true endThrows) (ret tt) ;;;
      modify (withClientRef None)
  | None => ret tt
  end ;;;
  setIsConnected false ;;;
  setStatus (lit "Disconnected").

(** An error object, as far as the handlers look at it:
    [err.message || String(err)]. *)
Record MqttError : Type := mkMqttError {
  errMessage : jsstring;
  errString : jsstring
}.

Definition errorText (err : MqttError) : jsstring :=
  if isEmpty (errMessage err) then errString err else errMessage err.

(** What a client may emit to the listeners of lines 136 to 171.
    [Subscribed] is the callback of [client.subscribe]; [Message] carries
    the two clock readings its handling makes. *)
Inductive ClientEvent : Type :=
| Connected
| Subscribed (err : option MqttError)
| Reconnect
| Close
| Offline
| Error (err : MqttError)
| Message (msgTopic : jsstring) (payload : option jsstring)
          (received parsed : Date).

(** The listeners that [connect] registers on [client], with the [topic]
    their closure holds. *)
Definition listener (client : Client) (tp : jsstring) (ev : ClientEvent)
  : Eff unit :=
  match ev with
  | Connected =>
      setIsConnected true ;;;
      setStatus (lit "Connected. Subscribing...") ;;;
      clientSubscribe client tp
  | Subscribed (Some err) =>
      setStatus (lit "Subscribe error: " ++ errorText err)
  | Subscribed None =>
      setStatus (lit "Subscribed to: " ++ tp)
  | Reconnect => setStatus (lit "Reconnecting...")
  | Close =>
      setIsConnected false ;;;
      setStatus (lit "Connection closed")
  | Offline =>
      setIsConnected false ;;;
      setStatus (lit "Offline")
  | Error err => setStatus (lit "Error: " ++ errorText err)
  | Message msgTopic payload received parsed =>
      let raw := match payload with Some p => p | None => [] end in
      setLatestTopic msgTopic ;;;
      setLatestTime (Some received) ;;;
      setLatestRaw raw ;;;
      parseMessage parsed raw
  end.

(** [connect()], lines 124 to 172. *)
Definition connect (endThrows : bool) : Eff unit :=
  url <- get brokerUrl ;;
  if negb (startsWith url (lit "wss://")) then
    setStatus (lit "Broker must use wss:// when app is served over HTTPS")
  else
    disconnect endThrows ;;;
    setStatus (lit "Connecting to " ++ url ++ lit " ...") ;;;
    client <- mqttConnect url ;;
    modify (withClientRef (Some client)) ;;;
    tp <- get topic ;;
    modify (fun w => withListeners ((client, tp) :: listeners w) w).

(** A client emits an event: the listeners registered on it run. *)
Definition emit (c : Client) (ev : ClientEvent) : Eff unit :=
  ls <- get listeners ;;
  match find (fun l => Nat.eqb (fst l) c) ls with
  | Some (_, tp) => listener c tp ev
  | None => ret tt
  end.

(** What the event loop can run, one at a time. *)
Inductive Action : Type :=
| TypeBrokerUrl (v : jsstring)
| TypeTopic (v : jsstring)
| ClickConnect (endThrows : bool)
| ClickDisconnect (endThrows : bool)
| ClickTest (now : Date) (avgTest minTest maxTest : Z)
| Emit (c : Client) (ev : ClientEvent).

Definition perform (a : Action) : Eff unit :=
  match a with
  | TypeBrokerUrl v => modify (withBrokerUrl v)
  | TypeTopic v => modify (withTopic v)
  | ClickConnect endThrows => connect endThrows
  | ClickDisconnect endThrows => disconnect endThrows
  | ClickTest now a m x => testMessage now a m x
  | Emit c ev => emit c ev
  end.

(** The state after a run of actions; an exception that leaves a handler
    ends that handler only. *)
Definition runActions (acts : list Action) (w : App) : App :=
  fold_left (fun w a => stateOf (perform a w)) acts w.

(** The clients created and not yet handed to [end]. *)
Fixpoint liveClients (calls : list LibCall) (live : list Client)
  : list Client :=
  match calls with
  | [] => live
  | MqttConnect _ c :: calls' => liveClients calls' (live ++ [c])
  | ClientEnd c _ _ :: calls' =>
      liveClients calls' (filter (fun c' => negb (Nat.eqb c' c)) live)
  | ClientSubscribe _ _ :: calls' => liveClients calls' live
  end.

(** A run of [parseMessage] calls, each with its clock reading. *)
Definition parseAll (calls : list (Date * jsstring)) (w : App) : App :=
  fold_left (fun w c => stateOf (parseMessage (fst c) (snd c) w)) calls w.

(* ================================================================= *)
(** ** Arithmetic on Numbers *)

(** The fraction num / den, den positive, that a finite Number denotes. *)
Definition fractionOf (neg : bool) (m e : Z) : Z * Z :=
  let n := if neg then - m else m in
  if 0 <=? e then (n * 2 ^ e, 1) else (n, 2 ^ (- e)).

(** The Number nearest to n / d, d positive; a result that is exactly
    zero takes the sign [negZero]. *)
Definition ofFraction (negZero : bool) (n d : Z) : JSNumber :=
  toDouble (if n =? 0 then negZero else n <? 0) (Z.abs n) d.

Definition isZero (x : JSNumber) : bool :=
  match x with
  | Finite _ m _ => m =? 0
  | _ => false
  end.

Definition isNegative (x : JSNumber) : bool :=
  match x with
  | Finite neg _ _ => neg
  | Infinity neg => neg
  | NaN => false
  end.

(** [Number.isFinite(x)] *)
Definition isFinite (x : JSNumber) : bool :=
  match x with
  | Finite _ _ _ => true
  | _ => false
  end.

(** [-x] *)
Definition numNeg (x : JSNumber) : JSNumber :=
  match x with
  | NaN => NaN
  | Infinity neg => Infinity (negb neg)
  | Finite neg m e => Finite (negb neg) m e
  end.

(** [x + y]: the exact sum, rounded; a sum that is exactly zero is -0
    only when both terms are -0. *)
Definition numAdd (x y : JSNumber) : JSNumber :=
  match x, y with
  | NaN, _ | _, NaN => NaN
  | Infinity a, Infinity b => if Bool.eqb a b then Infinity a else NaN
  | Infinity a, Finite _ _ _ => Infinity a
  | Finite _ _ _, Infinity b => Infinity b
  | Finite a m1 e1, Finite b m2 e2 =>
      let '(n1, d1) := fractionOf a m1 e1 in
      let '(n2, d2) := fractionOf b m2 e2 in
      ofFraction (a && b) (n1 * d2 + n2 * d1) (d1 * d2)
  end.

(** [x - y] *)
Definition numSub (x y : JSNumber) : JSNumber := numAdd x (numNeg y).

(** [x * y] *)
Definition numMul (x y : JSNumber) : JSNumber :=
  match x, y with
  | NaN, _ | _, NaN => NaN
  | Infinity a, Infinity b => Infinity (xorb a b)
  | Infinity a, Finite b m _ =>
      if m =? 0 then NaN else Infinity (xorb a b)
  | Finite a m _, Infinity b =>
      if m =? 0 then NaN else Infinity (xorb a b)
  | Finite a m1 e1, Finite b m2 e2 =>
      let '(n1, d1) := fractionOf a m1 e1 in
      let '(n2, d2) := fractionOf b m2 e2 in
      ofFraction (xorb a b) (n1 * n2) (d1 * d2)
  end.

(** [x / y] *)
Definition numDiv (x y : JSNumber) : JSNumber :=
  match x, y with
  | NaN, _ | _, NaN => NaN
  | Infinity _, Infinity _ => NaN
  | Infinity a, Finite b _ _ => Infinity (xorb a b)
  | Finite a _ _, Infinity b => Finite (xorb a b) 0 (-1074)
  | Finite a m1 e1, Finite b m2 e2 =>
      if m2 =? 0 then
        if m1 =? 0 then NaN else Infinity (xorb a b)
      else
        let '(n1, d1) := fractionOf a m1 e1 in
        let '(n2, d2) := fractionOf b m2 e2 in
        ofFraction (xorb a b) (n1 * d2 * Z.sgn n2) (d1 * Z.abs n2)
  end.

(** [Math.floor(x)], [Math.ceil(x)] and [Math.round(x)], the last one the
    nearest integer with ties upwards; a result that is zero has the sign
    of [x]. *)
Definition mathFloor (x : JSNumber) : JSNumber :=
  match x with
  | Finite neg m e =>
      let '(n, d) := fractionOf neg m e in ofFraction neg (n / d) 1
  | _ => x
  end.

Definition mathCeil (x : JSNumber) : JSNumber :=
  match x with
  | Finite neg m e =>
      let '(n, d) := fractionOf neg m e in ofFraction neg (- ((- n) / d)) 1
  | _ => x
  end.

Definition mathRound (x : JSNumber) : JSNumber :=
  match x with
  | Finite neg m e =>
      let '(n, d) := fractionOf neg m e in
      ofFraction neg ((2 * n + d) / (2 * d)) 1
  | _ => x
  end.

(** [x < y]; false when either is NaN, and the two zeros are equal. *)
Definition numLt (x y : JSNumber) : bool :=
  match x, y with
  | NaN, _ | _, NaN => false
  | Infinity a, Infinity b => a && negb b
  | Infinity a, Finite _ _ _ => a
  | Finite _ _ _, Infinity b => negb b
  | Finite a m1 e1, Finite b m2 e2 =>
      let '(n1, d1) := fractionOf a m1 e1 in
      let '(n2, d2) := fractionOf b m2 e2 in
      n1 * d2 <? n2 * d1
  end.

(** [x <= y] *)
Definition numLe (x y : JSNumber) : bool :=
  negb (isNaN x) && negb (isNaN y) && negb (numLt y x).

(** [Math.min(...values)]: +Infinity for no value, NaN when a value is
    NaN, and -0 below +0. *)
Definition minStep (lowest number : JSNumber) : JSNumber :=
  if isNaN lowest || isNaN number then NaN
  else if isZero number && isNegative number && isZero lowest
          && negb (isNegative lowest) then number
  else if numLt number lowest then number
  else lowest.

Definition mathMin (values : list JSNumber) : JSNumber :=
  fold_left minStep values (Infinity false).

(** [Math.max(...values)]: -Infinity for no value, NaN when a value is
    NaN, and +0 above -0. *)
Definition maxStep (highest number : JSNumber) : JSNumber :=
  if isNaN highest || isNaN number then NaN
  else if isZero number && negb (isNegative number) && isZero highest
          && isNegative highest then number
  else if numLt highest number then number
  else highest.

Definition mathMax (values : list JSNumber) : JSNumber :=
  fold_left maxStep values (Infinity true).

(* ================================================================= *)
(** ** The chart *)

(** What [SoundChart] computes from its data before it renders, lines 33
    to 51: the finite values, their least and greatest, the padded domain
    rounded to tenths, and the number of ticks. *)
Definition allValues (data : list Sample) : list JSNumber :=
  filter isFinite (flat_map (fun d => [min d; max d; average d]) data).

(** How the evaluation of an expression of the chart ends: with a value,
    or with the RangeError of a call handed more arguments than the engine
    takes. *)
Inductive Completion (A : Type) : Type :=
| Normal (a : A)
| RangeError.

Arguments Normal {A} a.
Arguments RangeError {A}.

(** [f(...values)]: each element of the array becomes an argument of the
    call.  An engine takes so many arguments and no more, [limit] here,
    and throws a RangeError when handed more. *)
Definition spreadCall (limit : nat) (f : list JSNumber -> JSNumber)
    (values : list JSNumber) : Completion JSNumber :=
  if (List.length values <=? limit)%nat then Normal (f values)
  else RangeError.

(** [Math.min(...allValues)], line 36. *)
Definition minY (limit : nat) (data : list Sample) : Completion JSNumber :=
  spreadCall limit mathMin (allValues data).

(** [Math.max(...allValues)], line 37. *)
Definition maxY (limit : nat) (data : list Sample) : Completion JSNumber :=
  spreadCall limit mathMax (allValues data).

Definition padding : JSNumber := Number (lit "0.3").

(** Line 41, from the value of [minY]. *)
Definition domainMin (minY : JSNumber) : JSNumber :=
  numDiv (mathFloor (numMul (numSub minY padding) (numberOfZ 10)))
         (numberOfZ 10).

(** Line 42, from the value of [maxY]. *)
Definition domainMax (maxY : JSNumber) : JSNumber :=
  numDiv (mathCeil (numMul (numAdd maxY padding) (numberOfZ 10)))
         (numberOfZ 10).

(** The expression of line 51, from the two ends of the domain. *)
Definition ticks (domainMin domainMax : JSNumber) : JSNumber :=
  mathMin
    [numberOfZ 20;
     mathMax
       [numberOfZ 6;
        numAdd
          (mathRound
             (numMul (numSub domainMax domainMin) (numberOfZ 10)))
          (numberOfZ 1)]].

(** The [tickCount] of line 51 as [SoundChart] reaches it: [minY] is
    evaluated first, then [maxY], and a RangeError from either leaves the
    component before anything else is computed. *)
Definition tickCount (limit : nat) (data : list Sample)
  : Completion JSNumber :=
  match minY limit data with
  | RangeError => RangeError
  | Normal lowest =>
      match maxY limit data with
      | RangeError => RangeError
      | Normal highest =>
          Normal (ticks (domainMin lowest) (domainMax highest))
      end
  end.

(** [x] is the Number nearest to the non-negative integer [n], ties to
    the even significand: the integer itself where a Number holds it,
    a neighbour within half a unit of the last place past 2^53, and
    Infinity from 2^1024 - 2^970 on. *)
Definition roundedFrom (n : Z) (x : JSNumber) : Prop :=
  match x with
  | NaN => False
  | Infinity neg => neg = false /\ 2 ^ 1024 - 2 ^ 970 <= n
  | Finite neg m e =>
      neg = false /\ 0 <= m < 2 ^ 53
      /\ (e <= 0 -> m = n * 2 ^ (- e))
      /\ (0 < e ->
          2 ^ 52 <= m
          /\ 2 * Z.abs (m * 2 ^ e - n) <= 2 ^ e
          /\ (2 * Z.abs (m * 2 ^ e - n) = 2 ^ e -> Z.even m = true))
  end.

(* ================================================================= *)
(** ** Notions the statements are about *)

(** A text with no white space at either end. *)
Definition solid (t : jsstring) : bool :=
  match t with
  | [] => true
  | c :: _ => negb (isWhiteSpace c)
  end
  && match rev t with
     | [] => true
     | c :: _ => negb (isWhiteSpace c)
     end.

(** The text after the first separator, and the text before it. *)
Fixpoint afterFirst (sep : ascii) (s : jsstring) : jsstring :=
  match s with
  | [] => []
  | c :: s' => if Ascii.eqb c sep then s' else afterFirst sep s'
  end.

Fixpoint upToFirst (sep : ascii) (s : jsstring) : jsstring :=
  match s with
  | [] => []
  | c :: s' => if Ascii.eqb c sep then [] else c :: upToFirst sep s'
  end.

(** The pure part of [fieldNumber]: the text handed to [Number] for
    position [i], when there is one. *)
Definition fieldText (messageValues : list jsstring) (i : nat)
  : option jsstring :=
  match nth_error messageValues i with
  | Some segment => option_map trim (nth_error (split segment ",") 1)
  | None => None
  end.

(** The Sample of lines 182 to 187. *)
Definition sampleOf (now : Date) (a m x : JSNumber) : Sample :=
  {| time := now; min := m; max := x; average := a |}.

Definition allNumeric (a m x : JSNumber) : bool :=
  negb (isNaN a) && negb (isNaN m) && negb (isNaN x).

(** A payload is accepted when [parseMessage] emits a Sample for it. *)
Definition accepted (message : jsstring) : bool :=
  negb (Nat.eqb
          (List.length
             (messages (stateOf (parseMessage 0 message initialApp)))) 0).

(** The client the component holds, as a list. *)
Definition held (w : App) : list Client :=
  match clientRef w with
  | Some c => [c]
  | None => []
  end.

(** The library call by which [disconnect] tears the held client down. *)
Definition teardown (endThrows : bool) (w : App) : list LibCall :=
  match clientRef w with
  | Some c => [ClientEnd c true endThrows]
  | None => []
  end.

(** The clients created and not handed to [end] are the client held. *)
Definition oneLive (w : App) : Prop :=
  liveClients (libCalls w) [] = held w.

(** At no point of the trace were two clients live. *)
Definition neverTwoLive (calls : list LibCall) : Prop :=
  forall n, (List.length (liveClients (firstn n calls) []) <= 1)%nat.

(** The library calls one action can add to the trace, from the state
    [w]: none, a subscription, the teardown of the client held, or that
    teardown followed by the creation of a client. *)
Definition stepCalls (w : App) (extra : list LibCall) : Prop :=
  extra = []
  \/ (exists c tp, extra = [ClientSubscribe c tp])
  \/ (exists endThrows, extra = teardown endThrows w)
  \/ (exists endThrows url c,
        extra = teardown endThrows w ++ [MqttConnect url c]).

(** A hexadecimal literal, the text that [Number] reads it from and the
    integer it writes. *)
Definition isHexMark (c : ascii) : bool := Ascii.eqb c "x" || Ascii.eqb c "X".

Definition hexLiteral (mark : ascii) (digits : jsstring) : jsstring :=
  "0"%char :: mark :: digits.

Definition hexDigits (digits : jsstring) : bool :=
  negb (isEmpty digits) && forallb (isDigitOf 16) digits.

Inductive Sign : Type :=
| NoSign
| Plus
| Minus.

Definition signText (s : Sign) : jsstring :=
  match s with
  | NoSign => []
  | Plus => ["+"%char]
  | Minus => ["-"%char]
  end.

Definition isMinus (s : Sign) : bool :=
  match s with
  | Minus => true
  | _ => false
  end.

Record ExponentPart : Type := mkExponent {
  expMark : ascii;
  expSign : Sign;
  expDigits : jsstring
}.

(** A decimal literal as written: a sign or none, the digits before the
    point, the point and the digits after it or neither, an exponent part
    or none. *)
Record DecimalLiteral : Type := mkDecimal {
  litSign : Sign;
  intDigits : jsstring;
  fracDigits : option jsstring;
  expPart : option ExponentPart
}.

Definition fracOf (d : DecimalLiteral) : jsstring :=
  match fracDigits d with
  | Some ds => ds
  | None => []
  end.

Definition fracText (f : option jsstring) : jsstring :=
  match f with
  | Some ds => "."%char :: ds
  | None => []
  end.

Definition expText (e : option ExponentPart) : jsstring :=
  match e with
  | Some e => expMark e :: signText (expSign e) ++ expDigits e
  | None => []
  end.

Definition decimalText (d : DecimalLiteral) : jsstring :=
  signText (litSign d) ++ intDigits d ++ fracText (fracDigits d)
    ++ expText (expPart d).

Definition expValue (e : option ExponentPart) : Z :=
  match e with
  | Some e =>
      if isMinus (expSign e) then - digitsValue 10 (expDigits e)
      else digitsValue 10 (expDigits e)
  | None => 0
  end.

Definition wellFormedExponent (e : option ExponentPart) : bool :=
  match e with
  | Some e =>
      (Ascii.eqb (expMark e) "e" || Ascii.eqb (expMark e) "E")
      && negb (isEmpty (expDigits e))
      && forallb isDigit (expDigits e)
  | None => true
  end.

Definition wellFormed (d : DecimalLiteral) : bool :=
  forallb isDigit (intDigits d)
  && forallb isDigit (fracOf d)
  && negb (isEmpty (intDigits d) && isEmpty (fracOf d))
  && wellFormedExponent (expPart d).

(** The Number a decimal literal denotes: the one nearest to
    digits * 10^(exponent - number of fraction digits), signed. *)
Definition decimalNumber (d : DecimalLiteral) : JSNumber :=
  decimalToDouble (isMinus (litSign d))
    (digitsValue 10 (intDigits d ++ fracOf d))
    (expValue (expPart d) - Z.of_nat (List.length (fracOf d))).

(** The units a decimal literal is made of. *)
Definition decimalUnit (c : ascii) : bool :=
  isDigit c || Ascii.eqb c "." || Ascii.eqb c "e" || Ascii.eqb c "E"
  || Ascii.eqb c "+" || Ascii.eqb c "-".

(** What follows a run of digits does not start with a digit. *)
Definition noDigitAhead (s : jsstring) : bool :=
  match s with
  | [] => true
  | c :: _ => negb (isDigit c)
  end.

(** A field as the wire format writes it: a label, a comma, and a decimal
    literal with white space before and after. *)
Record WrittenField : Type := mkField {
  label : jsstring;
  before : jsstring;
  number : DecimalLiteral;
  after : jsstring
}.

Definition written (f : WrittenField) : jsstring :=
  label f ++ ","%char :: before f ++ decimalText (number f) ++ after f.

Definition wellWritten (f : WrittenField) : Prop :=
  ~ In ";"%char (label f) /\ ~ In ","%char (label f)
  /\ forallb isWhiteSpace (before f) = true
  /\ forallb isWhiteSpace (after f) = true
  /\ wellFormed (number f) = true.

(** The second scenario of the specification, irregular spacing and
    lower-case labels. *)
Definition scenarioAverage : WrittenField :=
  mkField (lit "average") [] (mkDecimal NoSign (lit "95") (Some (lit "5")) None)
          (lit " ").

Definition scenarioMin : WrittenField :=
  mkField (lit " min ") (lit " ")
          (mkDecimal NoSign (lit "40") (Some (lit "2")) None) [].

Definition scenarioMax : WrittenField :=
  mkField (lit " max") (lit " ")
          (mkDecimal NoSign (lit "150") (Some (lit "9")) None) [].

(** Four calls in a row, two of them with payloads that are accepted. *)
Definition scenarioCalls : list (Date * jsstring) :=
  [(10, lit "Average, 95; Min, 40; Max, 150;");
   (10, lit "Temp update: all nominal");
   (12, lit "Average, abc; Min, 40; Max, 150;");
   (15, lit "average,95.5 ; min , 40.2; max, 150.9;")].

(** The Number the code makes of a segment with a comma: the text between
    the first comma and the next one, or the end of the segment. *)
Definition segmentValue (segment : jsstring) : JSNumber :=
  Number (trim (upToFirst "," (afterFirst "," segment))).

(** The Number the whole text after the first comma would make. *)
Definition entireValue (segment : jsstring) : JSNumber :=
  Number (trim (afterFirst "," segment)).

(** Field [i] of a Sample, in the order of the wire format. *)
Definition sampleField (i : nat) (s : Sample) : JSNumber :=
  match i with
  | O => average s
  | S O => min s
  | _ => max s
  end.

(** The Samples a payload makes [parseMessage] emit at the clock reading
    [now]: one or none. *)
Definition emitted (now : Date) (message : jsstring) : list Sample :=
  messages (stateOf (parseMessage now message initialApp)).

(** A Sample none of whose three fields is NaN. *)
Definition sampleNumeric (s : Sample) : bool :=
  allNumeric (average s) (min s) (max s).

(** The actions that call [parseMessage]: a click on Test and the arrival
    of a message. *)
Definition feedsSeries (a : Action) : bool :=
  match a with
  | ClickTest _ _ _ _ => true
  | Emit _ (Message _ _ _ _) => true
  | _ => false
  end.

(** The client [c] has been created by [mqtt.connect]. *)
Definition created (w : App) (c : Client) : Prop :=
  exists url, In (MqttConnect url c) (libCalls w).

(** Listeners are registered on the client [c]. *)
Definition listened (w : App) (c : Client) : bool :=
  existsb (fun l => Nat.eqb (fst l) c) (listeners w).

(** Two connections in a row, the second client connected. *)
Definition twoConnections : App :=
  runActions
    [TypeBrokerUrl (lit "wss://broker.example.com");
     ClickConnect false; ClickConnect false; Emit 2%nat Connected]
    initialApp.

(** The field that [testMessage] writes for the integer [n] under the
    label [l]. *)
Definition testField (l : jsstring) (n : Z) : WrittenField :=
  mkField l (lit " ") (mkDecimal NoSign (text n) None None) [].

(** The clock reading that an action hands to [parseMessage], when it
    calls it. *)
Definition clockReading (a : Action) : list Date :=
  match a with
  | ClickTest now _ _ _ => [now]
  | Emit _ (Message _ _ _ parsed) => [parsed]
  | _ => []
  end.

(** A morning at the bench: a test click, a connection, two messages, one
    of them not in the wire format, and a disconnection. *)
Definition scenarioRun : list Action :=
  [ClickTest 5 95 40 150;
   TypeBrokerUrl (lit "wss://broker.example.com"); TypeTopic (lit "sound");
   ClickConnect false; Emit 0%nat Connected; Emit 0%nat (Subscribed None);
   Emit 0%nat (Message (lit "sound")
                 (Some (lit "Average, 91.5; Min, 40; Max, 150;")) 7 8);
   Emit 0%nat (Message (lit "sound") (Some (lit "average min max")) 9 9);
   ClickDisconnect false; ClickTest 12 100 50 160].

(* ================================================================= *)
(** ** The built-ins at work *)

Example split_keeps_empty_pieces :
  split (lit "a;b;;c;") ";" = [lit "a"; lit "b"; []; lit "c"; []]
  /\ split [] ";" = [[]]
  /\ split (lit "no separator") ";" = [lit "no separator"].
Proof. repeat split. Qed.

Example trim_both_ends :
  trim (lit "  40.2 ") = lit "40.2" /\ trim (lit "   ") = []
  /\ trim (lit "a b") = lit "a b".
Proof. repeat split. Qed.

Example includes_anywhere :
  includes (lit "the minimum") (lit "min") = true
  /\ includes (lit "maximum") (lit "min") = false
  /\ includes [] [] = true.
Proof. repeat split. Qed.

Example toLowerCase_letters :
  toLowerCase (lit "Average, 0X1F; 1E3") = lit "average, 0x1f; 1e3".
Proof. reflexivity. Qed.

(** Numbers read from text: integers and fractions, the three bases,
    exponents, the signs of zero and the infinities. *)
Example Number_reads :
  Number (lit "95") = numberOfZ 95
  /\ Number (lit " 12 ") = numberOfZ 12
  /\ Number (lit "1e3") = numberOfZ 1000
  /\ Number (lit "0x1f") = numberOfZ 31
  /\ Number (lit "0b101") = numberOfZ 5
  /\ Number (lit "0o17") = numberOfZ 15
  /\ Number (lit ".5") = Finite false (2 ^ 52) (-53)
  /\ Number (lit "5.") = numberOfZ 5
  /\ Number (lit "40.2") = Finite false 5657647031884186 (-47)
  /\ Number (lit "") = positiveZero
  /\ Number (lit "-0") = Finite true 0 (-1074)
  /\ Number (lit "Infinity") = Infinity false
  /\ Number (lit "-Infinity") = Infinity true
  /\ Number (lit "1e400") = Infinity false
  /\ Number (lit "1e-400") = positiveZero
  /\ Number (lit "5e-324") = Finite false 1 (-1074)
  /\ Number (lit "1.7976931348623157e308") = Finite false (2 ^ 53 - 1) 971
  /\ Number (lit "0x20000000000001") = Finite false (2 ^ 52) 1.
Proof. vm_compute. repeat split. Qed.

Example Number_refuses :
  map Number
    [lit "abc"; lit "1,5"; lit "."; lit "1e"; lit "0x"; lit "-0x10";
     lit "infinity"; lit "1 2"; lit "+"; lit "1_000"]
  = [NaN; NaN; NaN; NaN; NaN; NaN; NaN; NaN; NaN; NaN].
Proof. vm_compute. reflexivity. Qed.

(** The first scenario of the specification. *)
Example parseMessage_first_scenario :
  parseMessage 1000 (lit "Average, 95; Min, 40; Max, 150;") initialApp
  = Returned tt
      (withMessages
         [sampleOf 1000 (numberOfZ 95) (numberOfZ 40) (numberOfZ 150)]
         initialApp).
Proof. vm_compute. reflexivity. Qed.

(** The payload is lower-cased before it is read, so the one word that
    [Number] knows, [Infinity], is not a number here. *)
Example parseMessage_infinity :
  parseMessage 1000 (lit "Average, Infinity; Min, 40; Max, 150;") initialApp
  = Returned tt initialApp.
Proof. vm_compute. reflexivity. Qed.

Example testMessage_appends :
  testMessage 1000 95 40 150 initialApp
  = Returned tt
      (withMessages
         [sampleOf 1000 (numberOfZ 95) (numberOfZ 40) (numberOfZ 150)]
         initialApp).
Proof. vm_compute. reflexivity. Qed.

(** Two connections in a row, the first torn down although [end] raises,
    then a disconnection. *)
Example connect_twice :
  let w :=
    runActions
      [TypeBrokerUrl (lit "wss://broker.example.com"); TypeTopic (lit "t");
       ClickConnect false; Emit 0%nat Connected; ClickConnect true;
       ClickDisconnect false]
      initialApp in
  libCalls w
  = [MqttConnect (lit "wss://broker.example.com") 0%nat;
     ClientSubscribe 0%nat (lit "t");
     ClientEnd 0%nat true true;
     MqttConnect (lit "wss://broker.example.com") 3%nat;
     ClientEnd 3%nat true false]
  /\ clientRef w = None
  /\ isConnected w = false
  /\ status w = lit "Disconnected".
Proof. vm_compute. repeat split. Qed.

(* ================================================================= *)
(** ** Code units *)

(** A property of code units that computes is settled unit by unit. *)
Ltac by_units c :=
  destruct c as [[] [] [] [] [] [] [] []]; vm_compute; try reflexivity;
  try discriminate; intuition discriminate.

Lemma lowerUnit_semicolon (c : ascii) :
  Ascii.eqb (lowerUnit c) ";" = Ascii.eqb c ";".
Proof. by_units c. Qed.

Lemma lowerUnit_comma (c : ascii) :
  Ascii.eqb (lowerUnit c) "," = Ascii.eqb c ",".
Proof. by_units c. Qed.

Lemma lowerUnit_whiteSpace (c : ascii) :
  isWhiteSpace (lowerUnit c) = isWhiteSpace c.
Proof. by_units c. Qed.

Lemma lowerUnit_digit (c : ascii) : isDigit c = true -> lowerUnit c = c.
Proof. by_units c. Qed.

Lemma lowerUnit_hex (c : ascii) :
  isDigitOf 16 c = true ->
  isDigitOf 16 (lowerUnit c) = true /\ digitOr0 (lowerUnit c) = digitOr0 c.
Proof. by_units c. Qed.

Lemma whiteSpace_not_separator (c : ascii) :
  isWhiteSpace c = true -> c <> ";"%char /\ c <> ","%char.
Proof. by_units c. Qed.

Lemma digit_not_whiteSpace (c : ascii) :
  isDigit c = true -> isWhiteSpace c = false.
Proof. by_units c. Qed.

Lemma hex_not_whiteSpace (c : ascii) :
  isDigitOf 16 c = true -> isWhiteSpace c = false.
Proof. by_units c. Qed.


(* ================================================================= *)
(** ** Splitting, trimming and searching *)

Section Split.

Variable sep : ascii.

Lemma split_not_nil (s : jsstring) : split s sep <> [].
Proof.
  induction s as [|c s IH]; simpl; [discriminate|].
  destruct (Ascii.eqb c sep); [discriminate|].
  destruct (split s sep); discriminate.
Qed.

(** A string without the separator is one piece. *)
Lemma split_without (s : jsstring) : ~ In sep s -> split s sep = [s].
Proof.
  induction s as [|c s IH]; intros Hs; simpl; [reflexivity|].
  destruct (Ascii.eqb_spec c sep) as [->|_].
  - exfalso; apply Hs; left; reflexivity.
  - rewrite IH; [reflexivity|]. intros Hin; apply Hs; right; exact Hin.
Qed.

(** The first piece ends at the first separator. *)
Lemma split_at_first (a b : jsstring) :
  ~ In sep a -> split (a ++ sep :: b) sep = a :: split b sep.
Proof.
  induction a as [|c a IH]; intros Ha; simpl.
  - rewrite Ascii.eqb_refl; reflexivity.
  - destruct (Ascii.eqb_spec c sep) as [->|_].
    + exfalso; apply Ha; left; reflexivity.
    + rewrite IH; [reflexivity|]. intros Hin; apply Ha; right; exact Hin.
Qed.

(** Lower-casing first or last makes no difference when no unit
    becomes, or stops being, the separator. *)
Lemma split_toLowerCase (s : jsstring) :
  (forall c, Ascii.eqb (lowerUnit c) sep = Ascii.eqb c sep) ->
  split (toLowerCase s) sep = map toLowerCase (split s sep).
Proof.
  intros Hsep. induction s as [|c s IH]; [reflexivity|].
  change (toLowerCase (c :: s)) with (lowerUnit c :: toLowerCase s).
  cbn [split]. rewrite Hsep, IH.
  destruct (Ascii.eqb c sep); [reflexivity|].
  destruct (split s sep); reflexivity.
Qed.

End Split.

Lemma trimStart_whiteSpace (w s : jsstring) :
  forallb isWhiteSpace w = true -> trimStart (w ++ s) = trimStart s.
Proof.
  induction w as [|c w IH]; simpl; intros H; [reflexivity|].
  apply andb_true_iff in H as [Hc Hw]. rewrite Hc. exact (IH Hw).
Qed.

Lemma trimStart_all_whiteSpace (w : jsstring) :
  forallb isWhiteSpace w = true -> trimStart w = [].
Proof.
  intros H. rewrite <- (app_nil_r w). rewrite trimStart_whiteSpace by exact H.
  reflexivity.
Qed.

Lemma trimStart_solid_head (c : ascii) (t : jsstring) :
  isWhiteSpace c = false -> trimStart (c :: t) = c :: t.
Proof. intros H; simpl; rewrite H; reflexivity. Qed.

(** [trim] removes exactly the white space around a solid text. *)
Lemma trim_padded (w1 t w2 : jsstring) :
  forallb isWhiteSpace w1 = true ->
  forallb isWhiteSpace w2 = true ->
  solid t = true ->
  trim (w1 ++ t ++ w2) = t.
Proof.
  intros H1 H2 Ht. unfold trim, trimEnd.
  rewrite trimStart_whiteSpace by exact H1.
  destruct t as [|c t].
  - simpl. rewrite (trimStart_all_whiteSpace w2 H2). reflexivity.
  - unfold solid in Ht. apply andb_true_iff in Ht as [Hhead Hlast].
    apply negb_true_iff in Hhead.
    change ((c :: t) ++ w2) with (c :: (t ++ w2)).
    rewrite trimStart_solid_head by exact Hhead.
    change (c :: (t ++ w2)) with ((c :: t) ++ w2).
    rewrite rev_app_distr.
    rewrite trimStart_whiteSpace
      by (rewrite forallb_forall in *; intros x Hx; apply H2;
          apply in_rev; exact Hx).
    destruct (rev (c :: t)) as [|d r] eqn:E.
    + apply (f_equal (@rev ascii)) in E. rewrite rev_involutive in E.
      discriminate E.
    + apply negb_true_iff in Hlast.
      rewrite trimStart_solid_head by exact Hlast.
      rewrite <- E. apply rev_involutive.
Qed.

Lemma trim_solid (t : jsstring) : solid t = true -> trim t = t.
Proof.
  intros Ht. pose proof (trim_padded [] t [] eq_refl eq_refl Ht) as H.
  simpl in H. rewrite app_nil_r in H. exact H.
Qed.

Lemma trim_all_whiteSpace (w : jsstring) :
  forallb isWhiteSpace w = true -> trim w = [].
Proof.
  intros H. pose proof (trim_padded w [] [] H eq_refl eq_refl) as E.
  simpl in E. rewrite app_nil_r in E. exact E.
Qed.

Lemma trimStart_toLowerCase (s : jsstring) :
  trimStart (toLowerCase s) = toLowerCase (trimStart s).
Proof.
  induction s as [|c s IH]; simpl; [reflexivity|].
  rewrite lowerUnit_whiteSpace. destruct (isWhiteSpace c); [exact IH|].
  reflexivity.
Qed.

Lemma trim_toLowerCase (s : jsstring) :
  trim (toLowerCase s) = toLowerCase (trim s).
Proof.
  unfold trim, trimEnd. rewrite trimStart_toLowerCase.
  unfold toLowerCase at 1. rewrite <- map_rev.
  fold (toLowerCase (rev (trimStart s))).
  rewrite trimStart_toLowerCase. unfold toLowerCase. rewrite map_rev.
  reflexivity.
Qed.

Lemma startsWith_nil (s : jsstring) : startsWith s [] = true.
Proof. destruct s; reflexivity. Qed.

Lemma startsWith_app (s k y : jsstring) :
  startsWith s k = true -> startsWith (s ++ y) k = true.
Proof.
  revert k. induction s as [|c s IH]; intros [|a k] H.
  - apply startsWith_nil.
  - discriminate H.
  - reflexivity.
  - simpl in *. apply andb_true_iff in H as [Hc Hs]. rewrite Hc.
    exact (IH k Hs).
Qed.

Lemma startsWith_iff (s p : jsstring) :
  startsWith s p = true <-> exists y, s = p ++ y.
Proof.
  revert s. induction p as [|a p IH]; intros s.
  - rewrite startsWith_nil. split; [intros _; exists s; reflexivity|tauto].
  - destruct s as [|b s]; simpl.
    + split; [discriminate|intros [y E]; discriminate E].
    + rewrite andb_true_iff, Ascii.eqb_eq, IH. split.
      * intros [-> [y ->]]. exists y. reflexivity.
      * intros [y E]. inversion E; subst. split; [reflexivity|].
        exists y. reflexivity.
Qed.

(** [includes] is the search for a substring. *)
Lemma includes_iff (s k : jsstring) :
  includes s k = true <-> exists x y, s = x ++ k ++ y.
Proof.
  induction s as [|c s IH].
  - cbn [includes]. rewrite orb_false_r, startsWith_iff. split.
    + intros [y E]. exists [], y. exact E.
    + intros [x [y E]]. destruct x; [exists y; exact E|discriminate E].
  - cbn [includes]. rewrite orb_true_iff, startsWith_iff, IH. split.
    + intros [[y E]|[x [y E]]].
      * exists [], y. exact E.
      * exists (c :: x), y. rewrite E. reflexivity.
    + intros [[|c' x] [y E]].
      * left. exists y. exact E.
      * right. inversion E; subst. exists x, y. reflexivity.
Qed.

(** An occurrence stays one when text is put before and after. *)
Lemma includes_app (x a y k : jsstring) :
  includes a k = true -> includes (x ++ a ++ y) k = true.
Proof.
  intros H.
  assert (Hy : includes (a ++ y) k = true).
  { clear x. induction a as [|c a IH].
    - simpl in H. rewrite orb_false_r in H. destruct k; [|discriminate].
      destruct y; simpl; rewrite ?startsWith_nil; reflexivity.
    - simpl in H. apply orb_true_iff in H as [H|H].
      + change ((c :: a) ++ y) with (c :: a ++ y).
        apply (startsWith_app (c :: a) k y) in H.
        change ((c :: a) ++ y) with (c :: a ++ y) in H.
        cbn [includes]. rewrite H. reflexivity.
      + change ((c :: a) ++ y) with (c :: a ++ y). cbn [includes].
        rewrite (IH H). apply orb_true_r. }
  clear H. induction x as [|c x IH]; [exact Hy|].
  change ((c :: x) ++ a ++ y) with (c :: x ++ a ++ y). cbn [includes].
  rewrite IH. apply orb_true_r.
Qed.

Lemma split_unfold (sep : ascii) (s : jsstring) :
  split s sep
  = upToFirst sep s
      :: (if existsb (fun c => Ascii.eqb c sep) s
          then split (afterFirst sep s) sep
          else []).
Proof.
  induction s as [|c s IH]; simpl; [reflexivity|].
  destruct (Ascii.eqb c sep); simpl; [reflexivity|].
  rewrite IH. reflexivity.
Qed.

Lemma existsb_separator (sep : ascii) (s : jsstring) :
  existsb (fun c => Ascii.eqb c sep) s = true <-> In sep s.
Proof.
  rewrite existsb_exists. split.
  - intros [c [Hin Hc]]. apply Ascii.eqb_eq in Hc. subst. exact Hin.
  - intros Hin. exists sep. split; [exact Hin|apply Ascii.eqb_refl].
Qed.

(** Element 1 of [segment.split(sep)]: the text between the first
    separator and the next one, or the end. *)
Lemma split_second (sep : ascii) (s : jsstring) :
  In sep s ->
  nth_error (split s sep) 1 = Some (upToFirst sep (afterFirst sep s)).
Proof.
  intros Hin. apply existsb_separator in Hin.
  rewrite split_unfold, Hin. simpl. rewrite split_unfold. reflexivity.
Qed.

Lemma split_second_undefined (sep : ascii) (s : jsstring) :
  ~ In sep s -> nth_error (split s sep) 1 = None.
Proof.
  intros Hin. rewrite split_without by exact Hin. reflexivity.
Qed.

(* ================================================================= *)
(** ** What [parseMessage] does, case by case *)

Lemma fieldNumber_eq (messageValues : list jsstring) (i : nat) (w : App) :
  fieldNumber messageValues i w
  = match fieldText messageValues i with
    | Some t => Returned (Number t) w
    | None => Thrown TypeError w
    end.
Proof.
  unfold fieldNumber, fieldText, bind.
  destruct (nth_error messageValues i) as [segment|]; [|reflexivity].
  cbn [member ret].
  destruct (nth_error (split segment ",") 1); reflexivity.
Qed.

(** The segment is there and has a comma: the field is the trimmed text
    between its first comma and the next. *)
Lemma fieldText_comma (messageValues : list jsstring) (i : nat)
    (segment : jsstring) :
  nth_error messageValues i = Some segment ->
  In ","%char segment ->
  fieldText messageValues i
  = Some (trim (upToFirst "," (afterFirst "," segment))).
Proof.
  intros Hseg Hcomma. unfold fieldText. rewrite Hseg.
  rewrite split_second by exact Hcomma. reflexivity.
Qed.

(** The field is [undefined] exactly when the segment is missing or has
    no comma. *)
Lemma fieldText_undefined (messageValues : list jsstring) (i : nat) :
  fieldText messageValues i = None <->
  nth_error messageValues i = None
  \/ exists segment,
       nth_error messageValues i = Some segment /\ ~ In ","%char segment.
Proof.
  unfold fieldText. destruct (nth_error messageValues i) as [segment|].
  - split.
    + intros H. right. exists segment. split; [reflexivity|].
      intros Hin. rewrite split_second in H by exact Hin. discriminate H.
    + intros [H|[seg' [H Hno]]]; [discriminate H|]. inversion H; subst.
      rewrite split_second_undefined by exact Hno. reflexivity.
  - split; [intros _; left; reflexivity|reflexivity].
Qed.

Lemma parseMessage_no_keywords (now : Date) (message : jsstring) (w : App) :
  hasKeywords message = false -> parseMessage now message w = Returned tt w.
Proof. intros H. unfold parseMessage. rewrite H. reflexivity. Qed.

Lemma parseMessage_fields (now : Date) (message : jsstring) (w : App)
    (ta tm tx : jsstring) :
  hasKeywords message = true ->
  fieldText (split (toLowerCase message) ";") 0 = Some ta ->
  fieldText (split (toLowerCase message) ";") 1 = Some tm ->
  fieldText (split (toLowerCase message) ";") 2 = Some tx ->
  parseMessage now message w
  = Returned tt
      (if allNumeric (Number ta) (Number tm) (Number tx)
       then withMessages
              (append (messages w)
                      (sampleOf now (Number ta) (Number tm) (Number tx))) w
       else w).
Proof.
  intros Hk Ha Hm Hx. unfold parseMessage. rewrite Hk. unfold bind.
  rewrite fieldNumber_eq, Ha. cbv beta iota.
  rewrite fieldNumber_eq, Hm. cbv beta iota.
  rewrite fieldNumber_eq, Hx. cbv beta iota.
  fold (allNumeric (Number ta) (Number tm) (Number tx)).
  destruct (allNumeric (Number ta) (Number tm) (Number tx)); reflexivity.
Qed.

Lemma parseMessage_undefined_field (now : Date) (message : jsstring)
    (w : App) (i : nat) :
  hasKeywords message = true ->
  (i < 3)%nat ->
  fieldText (split (toLowerCase message) ";") i = None ->
  parseMessage now message w = Thrown TypeError w.
Proof.
  intros Hk Hi Hnone. unfold parseMessage. rewrite Hk. unfold bind.
  rewrite fieldNumber_eq.
  destruct (fieldText (split (toLowerCase message) ";") 0) as [ta|] eqn:Ea;
    [|reflexivity].
  rewrite fieldNumber_eq.
  destruct (fieldText (split (toLowerCase message) ";") 1) as [tm|] eqn:Em;
    [|reflexivity].
  rewrite fieldNumber_eq.
  destruct (fieldText (split (toLowerCase message) ";") 2) as [tx|] eqn:Ex;
    [|reflexivity].
  destruct i as [|[|[|i]]]; try congruence. lia.
Qed.

(** However the call ends, it leaves the state alone or adds one Sample
    stamped [now] at the end of the series. *)
Lemma parseMessage_cases (now : Date) (message : jsstring) (w : App) :
  parseMessage now message w = Returned tt w
  \/ parseMessage now message w = Thrown TypeError w
  \/ exists a m x,
       parseMessage now message w
       = Returned tt
           (withMessages (append (messages w) (sampleOf now a m x)) w).
Proof.
  destruct (hasKeywords message) eqn:Hk;
    [|left; apply parseMessage_no_keywords; exact Hk].
  destruct (fieldText (split (toLowerCase message) ";") 0) as [ta|] eqn:Ea;
    [|right; left; apply (parseMessage_undefined_field _ _ _ 0%nat);
      [exact Hk|lia|exact Ea]].
  destruct (fieldText (split (toLowerCase message) ";") 1) as [tm|] eqn:Em;
    [|right; left; apply (parseMessage_undefined_field _ _ _ 1%nat);
      [exact Hk|lia|exact Em]].
  destruct (fieldText (split (toLowerCase message) ";") 2) as [tx|] eqn:Ex;
    [|right; left; apply (parseMessage_undefined_field _ _ _ 2%nat);
      [exact Hk|lia|exact Ex]].
  rewrite (parseMessage_fields now message w ta tm tx Hk Ea Em Ex).
  destruct (allNumeric (Number ta) (Number tm) (Number tx));
    [right; right; eauto|left; reflexivity].
Qed.

(* ================================================================= *)
(** ** The series accumulator *)

(** C5. Appending a Sample to a series gives a series one longer, whose
    earlier elements are the prior ones, unchanged and in their order, and
    whose last element is the Sample: nothing is deduplicated, capped or
    evicted. *)
Theorem append_is_additive (series : list Sample) (sample : Sample) :
  List.length (append series sample) = (List.length series + 1)%nat
  /\ firstn (List.length series) (append series sample) = series
  /\ (forall i s, nth_error series i = Some s ->
                  nth_error (append series sample) i = Some s)
  /\ nth_error (append series sample) (List.length series) = Some sample.
Proof.
  unfold append. repeat split.
  - rewrite length_app. reflexivity.
  - rewrite firstn_app, Nat.sub_diag, firstn_all. simpl. apply app_nil_r.
  - intros i s H. rewrite nth_error_app1; [exact H|].
    apply nth_error_Some. rewrite H. discriminate.
  - rewrite nth_error_app2, Nat.sub_diag by lia. reflexivity.
Qed.

(* ================================================================= *)
(** ** Rejected payloads *)

(** C4. A payload whose lower-cased text lacks one of the three keywords,
    and a payload with the three keywords one of whose first three values
    converts to NaN, produce no Sample: the state, and with it the
    series, is left as it was, and the call returns normally whenever the
    three values are there to be converted. *)
Theorem parseMessage_rejects (now : Date) (message : jsstring) (w : App) :
  (includes (toLowerCase message) (lit "average") = false
   \/ includes (toLowerCase message) (lit "min") = false
   \/ includes (toLowerCase message) (lit "max") = false)
  \/ (hasKeywords message = true
      /\ exists i t, (i < 3)%nat
           /\ fieldText (split (toLowerCase message) ";") i = Some t
           /\ isNaN (Number t) = true) ->
  stateOf (parseMessage now message w) = w
  /\ messages (stateOf (parseMessage now message w)) = messages w
  /\ (hasKeywords message = false
      \/ (forall j, (j < 3)%nat ->
            fieldText (split (toLowerCase message) ";") j <> None) ->
      parseMessage now message w = Returned tt w).
Proof.
  intros H.
  assert (Hstate : stateOf (parseMessage now message w) = w
                   /\ (hasKeywords message = false
                       \/ (forall j, (j < 3)%nat ->
                             fieldText (split (toLowerCase message) ";") j
                             <> None) ->
                       parseMessage now message w = Returned tt w)).
  { destruct H as [Hmiss|[Hk [i [t [Hi [Ht Hnan]]]]]].
    - assert (Hk : hasKeywords message = false).
      { unfold hasKeywords. destruct Hmiss as [E|[E|E]]; rewrite E;
          rewrite ?andb_false_r; reflexivity. }
      rewrite (parseMessage_no_keywords now message w Hk). auto.
    - destruct (fieldText (split (toLowerCase message) ";") 0)
        as [ta|] eqn:Ea.
      2:{ rewrite (parseMessage_undefined_field now message w 0 Hk);
            [|lia|exact Ea].
          split; [reflexivity|]. intros [E|E]; [congruence|].
          exfalso. apply (E 0%nat); [lia|exact Ea]. }
      destruct (fieldText (split (toLowerCase message) ";") 1)
        as [tm|] eqn:Em.
      2:{ rewrite (parseMessage_undefined_field now message w 1 Hk);
            [|lia|exact Em].
          split; [reflexivity|]. intros [E|E]; [congruence|].
          exfalso. apply (E 1%nat); [lia|exact Em]. }
      destruct (fieldText (split (toLowerCase message) ";") 2)
        as [tx|] eqn:Ex.
      2:{ rewrite (parseMessage_undefined_field now message w 2 Hk);
            [|lia|exact Ex].
          split; [reflexivity|]. intros [E|E]; [congruence|].
          exfalso. apply (E 2%nat); [lia|exact Ex]. }
      rewrite (parseMessage_fields now message w ta tm tx Hk Ea Em Ex).
      assert (Hall : allNumeric (Number ta) (Number tm) (Number tx) = false).
      { unfold allNumeric. destruct i as [|[|[|i]]]; [| | |lia].
        - replace ta with t by congruence. rewrite Hnan. reflexivity.
        - replace tm with t by congruence. rewrite Hnan.
          apply andb_false_iff. left. apply andb_false_r.
        - replace tx with t by congruence. rewrite Hnan.
          apply andb_false_r. }
      rewrite Hall. auto. }
  destruct Hstate as [Hs Hr]. split; [exact Hs|]. split; [|exact Hr].
  rewrite Hs. reflexivity.
Qed.

(** The claim at work on the scenarios of the specification: a payload
    without the keywords, and a payload whose average is not a number. *)
Lemma parseMessage_rejects_witness :
  (stateOf (parseMessage 0 (lit "Temp update: all nominal") initialApp)
   = initialApp
   /\ messages
        (stateOf (parseMessage 0 (lit "Temp update: all nominal") initialApp))
      = []
   /\ (hasKeywords (lit "Temp update: all nominal") = false
       \/ (forall j, (j < 3)%nat ->
             fieldText
               (split (toLowerCase (lit "Temp update: all nominal")) ";") j
             <> None) ->
       parseMessage 0 (lit "Temp update: all nominal") initialApp
       = Returned tt initialApp))
  /\ stateOf
       (parseMessage 0 (lit "Average, abc; Min, 40; Max, 150;") initialApp)
     = initialApp.
Proof.
  split.
  - apply (parseMessage_rejects 0 (lit "Temp update: all nominal")
             initialApp).
    left. left. vm_compute. reflexivity.
  - apply (parseMessage_rejects 0 (lit "Average, abc; Min, 40; Max, 150;")
             initialApp).
    right. split; [vm_compute; reflexivity|].
    exists 0%nat, (lit "abc"). repeat split; [lia|vm_compute; reflexivity..].
Defined.

(** A payload with the three keywords whose first, second or third
    segment is missing or has no comma: the call is left by a TypeError,
    the series as it was. *)
Lemma parseMessage_malformed (now : Date) (message : jsstring) (w : App)
    (i : nat) :
  hasKeywords message = true ->
  (i < 3)%nat ->
  (nth_error (split (toLowerCase message) ";") i = None
   \/ exists segment,
        nth_error (split (toLowerCase message) ";") i = Some segment
        /\ ~ In ","%char segment) ->
  parseMessage now message w = Thrown TypeError w.
Proof.
  intros Hk Hi H. apply (parseMessage_undefined_field now message w i Hk Hi).
  apply fieldText_undefined. exact H.
Qed.

(** C3. The code at three payloads that carry the keywords: one whose
    first segment has no comma, one without a third segment, one whose
    second segment has no comma.  Each call is left by a TypeError, where
    the claim has it return normally; the series is as it was. *)
Theorem parseMessage_throws_on_malformed (now : Date) (w : App) :
  parseMessage now (lit "average min max") w = Thrown TypeError w
  /\ parseMessage now (lit "Average, 95; Min max, 40") w = Thrown TypeError w
  /\ parseMessage now (lit "Average, 95; Min 40; Max, 150;") w
     = Thrown TypeError w.
Proof.
  split; [|split].
  - apply (parseMessage_malformed now _ w 0); [reflexivity|lia|].
    right. eexists. split; [vm_compute; reflexivity|].
    intros H. vm_compute in H. intuition discriminate.
  - apply (parseMessage_malformed now _ w 2); [reflexivity|lia|].
    left. vm_compute. reflexivity.
  - apply (parseMessage_malformed now _ w 1); [reflexivity|lia|].
    right. eexists. split; [vm_compute; reflexivity|].
    intros H. vm_compute in H. intuition discriminate.
Qed.

(* ================================================================= *)
(** ** The series over a run of calls *)

(** Whether a Sample is emitted depends on the payload alone, and the
    Sample emitted is stamped with the clock reading of the call. *)
Lemma parseMessage_accepted (now : Date) (message : jsstring) (w : App) :
  map time (messages (stateOf (parseMessage now message w)))
  = map time (messages w) ++ (if accepted message then [now] else []).
Proof.
  unfold accepted.
  destruct (hasKeywords message) eqn:Hk.
  2:{ rewrite !parseMessage_no_keywords by exact Hk. simpl.
      rewrite app_nil_r. reflexivity. }
  assert (Hthrow : forall i, (i < 3)%nat ->
            fieldText (split (toLowerCase message) ";") i = None ->
            map time (messages (stateOf (parseMessage now message w)))
            = map time (messages w)
                ++ (if negb (Nat.eqb
                       (List.length
                          (messages
                             (stateOf (parseMessage 0 message initialApp))))
                       0)
                    then [now] else [])).
  { intros i Hi E.
    rewrite !(parseMessage_undefined_field _ message _ i Hk Hi E). simpl.
    rewrite app_nil_r. reflexivity. }
  destruct (fieldText (split (toLowerCase message) ";") 0) as [ta|] eqn:Ea;
    [|apply (Hthrow 0%nat); [lia|exact Ea]].
  destruct (fieldText (split (toLowerCase message) ";") 1) as [tm|] eqn:Em;
    [|apply (Hthrow 1%nat); [lia|exact Em]].
  destruct (fieldText (split (toLowerCase message) ";") 2) as [tx|] eqn:Ex;
    [|apply (Hthrow 2%nat); [lia|exact Ex]].
  rewrite !(parseMessage_fields _ message _ ta tm tx Hk Ea Em Ex).
  destruct (allNumeric (Number ta) (Number tm) (Number tx)); simpl.
  - unfold append. rewrite map_app. reflexivity.
  - rewrite app_nil_r. reflexivity.
Qed.

Lemma parseAll_times (calls : list (Date * jsstring)) (w : App) :
  map time (messages (parseAll calls w))
  = map time (messages w)
      ++ map fst (filter (fun c => accepted (snd c)) calls).
Proof.
  revert w. induction calls as [|[now message] calls IH]; intros w.
  - simpl. rewrite app_nil_r. reflexivity.
  - unfold parseAll in *. cbn [fold_left fst snd].
    rewrite IH, parseMessage_accepted. cbn [filter snd].
    destruct (accepted message); simpl.
    + rewrite <- app_assoc. reflexivity.
    + rewrite app_nil_r. reflexivity.
Qed.


Lemma map_fst_filter_sorted (p : Date * jsstring -> bool)
    (calls : list (Date * jsstring)) :
  StronglySorted Z.le (map fst calls) ->
  StronglySorted Z.le (map fst (filter p calls)).
Proof.
  induction calls as [|c calls IH]; simpl; intros H; [constructor|].
  inversion H as [|a l Hs Hall]; subst.
  destruct (p c); [|exact (IH Hs)]. simpl. constructor; [exact (IH Hs)|].
  rewrite Forall_forall in *. intros x Hx. apply Hall.
  apply in_map_iff in Hx as [c' [E Hin]]. apply filter_In in Hin.
  apply in_map_iff. exists c'. tauto.
Qed.

(** C6. With a clock that never runs backwards, the series reached from
    the empty one by any run of [parseMessage] calls has non-decreasing
    times: they are the clock readings of the accepted calls, in order,
    and the series is as long as the accepted payloads are many. *)
Theorem series_times_nondecreasing (calls : list (Date * jsstring)) :
  Sorted Z.le (map fst calls) ->
  let series := messages (parseAll calls initialApp) in
  StronglySorted Z.le (map time series)
  /\ map time series = map fst (filter (fun c => accepted (snd c)) calls)
  /\ List.length series
     = List.length (filter (fun c => accepted (snd c)) calls).
Proof.
  intros Hclock series.
  assert (Htimes : map time series
                   = map fst (filter (fun c => accepted (snd c)) calls)).
  { unfold series. rewrite parseAll_times. reflexivity. }
  split; [|split; [exact Htimes|]].
  - rewrite Htimes. apply map_fst_filter_sorted.
    apply Sorted_StronglySorted; [|exact Hclock].
    intros x y z; apply Z.le_trans.
  - rewrite <- (length_map time series), Htimes. apply length_map.
Qed.

Lemma series_times_nondecreasing_witness :
  Sorted Z.le (map fst scenarioCalls)
  /\ StronglySorted Z.le
       (map time (messages (parseAll scenarioCalls initialApp)))
  /\ map time (messages (parseAll scenarioCalls initialApp)) = [10; 15]
  /\ List.length (messages (parseAll scenarioCalls initialApp)) = 2%nat.
Proof.
  assert (Hclock : Sorted Z.le (map fst scenarioCalls)).
  { unfold scenarioCalls. simpl. repeat constructor; lia. }
  pose proof (series_times_nondecreasing scenarioCalls Hclock)
    as [H1 [H2 H3]].
  split; [exact Hclock|]. split; [exact H1|].
  split; [rewrite H2|rewrite H3]; reflexivity.
Defined.

(* ================================================================= *)
(** ** The connection manager *)

Lemma connect_insecure_eq (endThrows : bool) (w : App) :
  startsWith (brokerUrl w) (lit "wss://") = false ->
  connect endThrows w
  = Returned tt
      (withStatus
         (lit "Broker must use wss:// when app is served over HTTPS") w).
Proof.
  intros Hurl. unfold connect, bind, get. rewrite Hurl. reflexivity.
Qed.

(** C7. A broker URL that does not start with [wss://] is turned down
    before anything else happens: the status tells of the scheme, no
    library call is made, so no client is created, and the client held,
    the connected flag and the listeners are as they were.  The check is
    made on every page, the securely served ones among them. *)
Theorem connect_rejects_insecure_url (endThrows : bool) (w : App) :
  startsWith (brokerUrl w) (lit "wss://") = false ->
  connect endThrows w
  = Returned tt
      (withStatus
         (lit "Broker must use wss:// when app is served over HTTPS") w)
  /\ libCalls (stateOf (connect endThrows w)) = libCalls w
  /\ clientRef (stateOf (connect endThrows w)) = clientRef w
  /\ isConnected (stateOf (connect endThrows w)) = isConnected w
  /\ listeners (stateOf (connect endThrows w)) = listeners w.
Proof.
  intros Hurl. rewrite (connect_insecure_eq endThrows w Hurl).
  repeat split.
Qed.

Lemma connect_rejects_insecure_url_witness :
  let w := withClientRef (Some 7%nat)
             (withBrokerUrl (lit "ws://broker.example.com") initialApp) in
  status (stateOf (connect false w))
  = lit "Broker must use wss:// when app is served over HTTPS"
  /\ libCalls (stateOf (connect false w)) = []
  /\ clientRef (stateOf (connect false w)) = Some 7%nat.
Proof.
  intros w.
  destruct (connect_rejects_insecure_url false w eq_refl)
    as [E [H1 [H2 _]]].
  split; [rewrite E; reflexivity|]. split; [exact H1|exact H2].
Defined.

Lemma liveClients_app (calls1 calls2 : list LibCall) (live : list Client) :
  liveClients (calls1 ++ calls2) live
  = liveClients calls2 (liveClients calls1 live).
Proof.
  revert live. induction calls1 as [|[url c|c force threw|c tp] calls1 IH];
    intros live; simpl; [reflexivity|apply IH..].
Qed.

(** [disconnect] always returns: what [end] raises is caught. *)
Lemma disconnect_eq (endThrows : bool) (w : App) :
  disconnect endThrows w
  = Returned tt
      (withStatus (lit "Disconnected")
         (withIsConnected false
            (match clientRef w with
             | Some c =>
                 withClientRef None
                   (withLibCalls
                      (libCalls w ++ [ClientEnd c true endThrows]) w)
             | None => w
             end))).
Proof.
  unfold disconnect, bind, get, tryCatch, clientEnd, modify, setIsConnected,
    setStatus, ret.
  destruct (clientRef w) as [c|]; [|reflexivity].
  destruct endThrows; reflexivity.
Qed.

Lemma connect_secure_eq (endThrows : bool) (w : App) :
  startsWith (brokerUrl w) (lit "wss://") = true ->
  exists w',
    connect endThrows w = Returned tt w'
    /\ libCalls w'
       = libCalls w ++ teardown endThrows w
           ++ [MqttConnect (brokerUrl w)
                 (List.length (libCalls w ++ teardown endThrows w))]
    /\ clientRef w'
       = Some (List.length (libCalls w ++ teardown endThrows w))
    /\ messages w' = messages w.
Proof.
  intros Hurl. unfold connect. unfold bind at 1. unfold get at 1.
  rewrite Hurl. cbn [negb]. unfold bind at 1. rewrite disconnect_eq.
  unfold teardown.
  destruct (clientRef w) as [c|] eqn:Ec; eexists; (split; [reflexivity|]);
    cbn; rewrite ?app_nil_r, <- ?app_assoc; repeat split; reflexivity.
Qed.

Lemma parseMessage_oneLive (now : Date) (message : jsstring) (w : App) :
  oneLive w -> oneLive (stateOf (parseMessage now message w)).
Proof.
  intros H.
  destruct (parseMessage_cases now message w) as [E|[E|[a [m [x E]]]]];
    rewrite E; exact H.
Qed.

Lemma listener_oneLive (c : Client) (tp : jsstring) (ev : ClientEvent)
    (w : App) :
  oneLive w -> oneLive (stateOf (listener c tp ev w)).
Proof.
  intros H. destruct ev as [|[err|]| | | |err|msgTopic payload received parsed].
  - unfold oneLive, held in *. cbn. rewrite liveClients_app, H. reflexivity.
  - exact H.
  - exact H.
  - exact H.
  - exact H.
  - exact H.
  - exact H.
  - cbn [listener]. unfold bind, setLatestTopic, setLatestTime, setLatestRaw,
      modify.
    apply parseMessage_oneLive. exact H.
Qed.

Lemma perform_oneLive (a : Action) (w : App) :
  oneLive w -> oneLive (stateOf (perform a w)).
Proof.
  intros H. destruct a as [v|v|endThrows|endThrows|now a m x|c ev].
  - exact H.
  - exact H.
  - cbn [perform].
    destruct (startsWith (brokerUrl w) (lit "wss://")) eqn:Hurl.
    + destruct (connect_secure_eq endThrows w Hurl) as [w' [E [Hc [Hr _]]]].
      rewrite E. unfold oneLive, held in *. cbn [stateOf].
      rewrite Hc, Hr, app_assoc, liveClients_app. cbn [liveClients].
      replace (liveClients (libCalls w ++ teardown endThrows w) [])
        with (@nil Client); [reflexivity|].
      rewrite liveClients_app, H. unfold teardown.
      destruct (clientRef w) as [c|]; [|reflexivity].
      cbn. rewrite Nat.eqb_refl. reflexivity.
    + rewrite (connect_insecure_eq endThrows w Hurl). exact H.
  - cbn [perform]. rewrite disconnect_eq. unfold oneLive, held in *.
    destruct (clientRef w) as [c|] eqn:Ec; cbn; [|rewrite Ec; exact H].
    rewrite liveClients_app, H. cbn. rewrite Nat.eqb_refl. reflexivity.
  - cbn [perform]. unfold testMessage. apply parseMessage_oneLive. exact H.
  - cbn [perform]. unfold emit, bind, get.
    destruct (find (fun l => Nat.eqb (fst l) c) (listeners w)) as [[c' tp]|];
      [|exact H].
    apply listener_oneLive. exact H.
Qed.

Lemma runActions_oneLive (acts : list Action) (w : App) :
  oneLive w -> oneLive (runActions acts w).
Proof.
  revert w. induction acts as [|a acts IH]; intros w H; [exact H|].
  apply IH, perform_oneLive, H.
Qed.

Lemma parseMessage_libCalls (now : Date) (message : jsstring) (w : App) :
  libCalls (stateOf (parseMessage now message w)) = libCalls w.
Proof.
  destruct (parseMessage_cases now message w) as [E|[E|[a [m [x E]]]]];
    rewrite E; reflexivity.
Qed.

Lemma perform_calls (a : Action) (w : App) :
  exists extra,
    libCalls (stateOf (perform a w)) = libCalls w ++ extra
    /\ stepCalls w extra.
Proof.
  unfold stepCalls.
  destruct a as [v|v|endThrows|endThrows|now a m x|c ev].
  - exists []. rewrite app_nil_r. split; [reflexivity|tauto].
  - exists []. rewrite app_nil_r. split; [reflexivity|tauto].
  - cbn [perform].
    destruct (startsWith (brokerUrl w) (lit "wss://")) eqn:Hurl.
    + destruct (connect_secure_eq endThrows w Hurl) as [w' [E [Hc _]]].
      rewrite E. eexists. split; [exact Hc|].
      right. right. right. eauto.
    + rewrite (connect_insecure_eq endThrows w Hurl).
      exists []. rewrite app_nil_r. split; [reflexivity|tauto].
  - cbn [perform]. rewrite disconnect_eq.
    exists (teardown endThrows w). split; [|right; right; left; eauto].
    unfold teardown. destruct (clientRef w) as [c|]; cbn;
      [reflexivity|rewrite app_nil_r; reflexivity].
  - cbn [perform]. unfold testMessage. rewrite parseMessage_libCalls.
    exists []. rewrite app_nil_r. split; [reflexivity|tauto].
  - cbn [perform]. unfold emit, bind, get.
    destruct (find (fun l => Nat.eqb (fst l) c) (listeners w)) as [[c' tp]|].
    2:{ exists []. rewrite app_nil_r. split; [reflexivity|tauto]. }
    destruct ev as [|[err|]| | | |err|msgTopic payload received parsed];
      try (exists []; rewrite app_nil_r; split; [reflexivity|tauto]).
    + exists [ClientSubscribe c tp]. split; [reflexivity|].
      right. left. eauto.
    + cbn [listener]. unfold bind, setLatestTopic, setLatestTime,
        setLatestRaw, modify.
      rewrite parseMessage_libCalls.
      exists []. rewrite app_nil_r. split; [reflexivity|tauto].
Qed.

Lemma neverTwoLive_step (w : App) (extra : list LibCall) :
  oneLive w -> neverTwoLive (libCalls w) -> stepCalls w extra ->
  neverTwoLive (libCalls w ++ extra).
Proof.
  intros Hone Hnever Hshape n. rewrite firstn_app.
  destruct (Nat.le_gt_cases n (List.length (libCalls w))) as [Hle|Hgt].
  - replace (n - List.length (libCalls w))%nat with 0%nat by lia.
    cbn [firstn]. rewrite app_nil_r. apply Hnever.
  - rewrite firstn_all2 by lia. rewrite liveClients_app, Hone.
    generalize (n - List.length (libCalls w))%nat as k. intros k.
    unfold stepCalls, held, teardown in *.
    destruct Hshape as [->|[[c [tp ->]]|[[b ->]|[b [url [c ->]]]]]];
      destruct (clientRef w) as [held|];
      destruct k as [|[|[|k]]]; cbn; rewrite ?Nat.eqb_refl; cbn; lia.
Qed.

Lemma runActions_live (acts : list Action) (w : App) :
  oneLive w -> neverTwoLive (libCalls w) ->
  oneLive (runActions acts w) /\ neverTwoLive (libCalls (runActions acts w)).
Proof.
  revert w. induction acts as [|a acts IH]; intros w Hone Hnever;
    [split; assumption|].
  cbn [runActions fold_left]. apply IH.
  - apply perform_oneLive. exact Hone.
  - destruct (perform_calls a w) as [extra [E Hshape]]. rewrite E.
    apply neverTwoLive_step; assumption.
Qed.

(** C8. Along every run of the event loop no two clients are ever live
    together, a client being live from its creation until it is handed to
    [end]: at every point of the trace of library calls one client at most
    is live, and between actions the live client is the one held.  From
    any state so reached [connect], with a [wss://] URL, first hands the
    client held to [end] and then creates the new client, which becomes
    the one live client; it does so whether or not [end] raises. *)
Theorem one_live_client (acts : list Action) (host : jsstring)
    (endThrows : bool) :
  let w := runActions acts initialApp in
  let w1 := withBrokerUrl (lit "wss://" ++ host) w in
  (forall n,
     (List.length (liveClients (firstn n (libCalls w)) []) <= 1)%nat)
  /\ liveClients (libCalls w) [] = held w
  /\ exists w2,
       connect endThrows w1 = Returned tt w2
       /\ libCalls w2
          = libCalls w ++ teardown endThrows w
              ++ [MqttConnect (lit "wss://" ++ host)
                    (List.length (libCalls w ++ teardown endThrows w))]
       /\ clientRef w2
          = Some (List.length (libCalls w ++ teardown endThrows w))
       /\ liveClients (libCalls w2) []
          = [List.length (libCalls w ++ teardown endThrows w)].
Proof.
  intros w w1.
  assert (Hlive : oneLive w /\ neverTwoLive (libCalls w)).
  { apply runActions_live; [reflexivity|]. intros [|n]; cbn; lia. }
  destruct Hlive as [Hone Hnever].
  split; [exact Hnever|]. split; [exact Hone|].
  assert (Hurl : startsWith (brokerUrl w1) (lit "wss://") = true)
    by (apply (startsWith_app (lit "wss://") (lit "wss://") host);
        reflexivity).
  destruct (connect_secure_eq endThrows w1 Hurl) as [w2 [E [Hc [Hr _]]]].
  exists w2. split; [exact E|]. split; [exact Hc|]. split; [exact Hr|].
  assert (Hlive2 : oneLive w2).
  { replace w2 with (stateOf (perform (ClickConnect endThrows) w1))
      by (cbn [perform]; rewrite E; reflexivity).
    apply perform_oneLive. exact Hone. }
  unfold oneLive, held in Hlive2. rewrite Hr in Hlive2. exact Hlive2.
Qed.

(* ================================================================= *)
(** ** Numbers that are exact *)

Lemma roundHalfEven_unit (a : Z) : roundHalfEven a 1 = a.
Proof.
  unfold roundHalfEven. rewrite Z.div_1_r, Z.mod_1_r. reflexivity.
Qed.

(** A positive integer below 2^53 is a Number as it stands: its
    significand is the integer shifted to 53 bits. *)
Lemma toDouble_integer (neg : bool) (n : Z) :
  0 < n < 2 ^ 53 ->
  toDouble neg n 1
  = Finite neg (n * 2 ^ (52 - Z.log2 n)) (Z.log2 n - 52).
Proof.
  intros [Hpos Hlt]. unfold toDouble.
  destruct (Z.eqb_spec n 0) as [->|_]; [lia|].
  change (Z.log2 1) with 0.
  pose proof (Z.log2_spec n Hpos) as [Hlo Hhi].
  pose proof (Z.log2_nonneg n) as Hl0.
  assert (Hl52 : Z.log2 n <= 52).
  { apply Z.lt_succ_r. apply (Z.log2_lt_pow2 n 53 Hpos). exact Hlt. }
  set (l := Z.log2 n) in *.
  assert (Hshift : forall k, 0 <= k -> 2 ^ (l + k) <= n * 2 ^ k < 2 ^ (l + 1 + k)).
  { intros k Hk. rewrite !Z.pow_add_r by lia.
    assert (0 < 2 ^ k) by (apply Z.pow_pos_nonneg; lia).
    unfold Z.succ in Hhi. rewrite Z.pow_add_r in Hhi by lia. nia. }
  rewrite Z.max_l by lia. unfold scaled at 1.
  destruct (Z.leb_spec 0 (l - 0 - 53)) as [Hge|_]; [lia|].
  rewrite Z.div_1_r.
  replace (- (l - 0 - 53)) with (53 - l) by lia.
  pose proof (Hshift (53 - l) ltac:(lia)) as [H53 _].
  replace (l + (53 - l)) with 53 in H53 by lia.
  destruct (Z.leb_spec (2 ^ 53) (n * 2 ^ (53 - l))) as [_|Hbad]; [|lia].
  pose proof (Hshift (52 - l) ltac:(lia)) as [_ H52].
  replace (l + 1 + (52 - l)) with 53 in H52 by lia.
  unfold scaled.
  destruct (Z.leb_spec 0 (l - 0 - 53 + 1)) as [Hge|Hneg].
  - assert (El : l = 52) by lia. rewrite El in *.
    change (1 * 2 ^ (52 - 0 - 53 + 1)) with 1. rewrite roundHalfEven_unit.
    change (2 ^ (52 - 52)) with 1 in *. rewrite Z.mul_1_r in *.
    destruct (Z.eqb_spec n (2 ^ 53)) as [E|_]; [lia|]. reflexivity.
  - rewrite roundHalfEven_unit.
    replace (- (l - 0 - 53 + 1)) with (52 - l) by lia.
    destruct (Z.eqb_spec (n * 2 ^ (52 - l)) (2 ^ 53)) as [E|_]; [lia|].
    destruct (Z.ltb_spec 971 (l - 0 - 53 + 1)) as [Hbig|_]; [lia|].
    f_equal. lia.
Qed.

(** The Number for an integer from 0 to 2^53 - 1 denotes that integer. *)
Lemma numberOfZ_exact (n : Z) :
  0 <= n < 2 ^ 53 ->
  exists q, numberValue (numberOfZ n) = Some q /\ (q == inject_Z n)%Q.
Proof.
  intros [Hn0 Hn]. unfold numberOfZ. rewrite Z.abs_eq by exact Hn0.
  destruct (Z.eq_dec n 0) as [->|Hne].
  - eexists. split; [reflexivity|]. reflexivity.
  - rewrite toDouble_integer by lia.
    destruct (Z.ltb_spec n 0) as [Hneg|_]; [lia|].
    eexists. split; [reflexivity|].
    assert (Hl52 : Z.log2 n <= 52).
    { apply Z.lt_succ_r. apply (Z.log2_lt_pow2 n 53); lia. }
    set (k := 52 - Z.log2 n).
    replace (Z.log2 n - 52) with (- k) by (unfold k; lia).
    rewrite inject_Z_mult, Zpower_Qpower by (unfold k; lia).
    rewrite Qpower_opp. change (inject_Z 2) with (2 # 1)%Q.
    rewrite <- Qmult_assoc, Qmult_inv_r, Qmult_1_r; [reflexivity|].
    apply Qpower_not_0. discriminate.
Qed.

(* ================================================================= *)
(** ** Texts that are numbers *)

Lemma solid_no_whiteSpace (t : jsstring) :
  forallb (fun c => negb (isWhiteSpace c)) t = true -> solid t = true.
Proof.
  intros H. unfold solid. apply andb_true_iff. split.
  - destruct t as [|c t]; [reflexivity|]. simpl in H.
    apply andb_true_iff in H. tauto.
  - destruct (rev t) as [|c r] eqn:E; [reflexivity|].
    rewrite forallb_forall in H. apply H. apply in_rev. rewrite E.
    left. reflexivity.
Qed.

(** Nothing, or white space only, is the Number +0. *)
Lemma Number_whiteSpace (t : jsstring) :
  forallb isWhiteSpace t = true -> Number t = positiveZero.
Proof.
  intros H. unfold Number. rewrite trim_all_whiteSpace by exact H.
  reflexivity.
Qed.


Lemma digitsValue_toLowerCase (digits : jsstring) :
  forallb (isDigitOf 16) digits = true ->
  forallb (isDigitOf 16) (toLowerCase digits) = true
  /\ digitsValue 16 (toLowerCase digits) = digitsValue 16 digits.
Proof.
  unfold digitsValue. generalize 0 as acc.
  induction digits as [|c ds IH]; intros acc H; [split; reflexivity|].
  simpl in H. apply andb_true_iff in H as [Hc Hds].
  destruct (lowerUnit_hex c Hc) as [Hc' Ev].
  destruct (IH (acc * 16 + digitOr0 c) Hds) as [Hds' E].
  split.
  - simpl. rewrite Hc'. exact Hds'.
  - simpl. rewrite Ev. exact E.
Qed.

(** [Number] reads a hexadecimal literal, in either letter case and
    lower-cased or not, as the Number for its integer. *)
Lemma Number_hexLiteral (mark : ascii) (digits : jsstring) :
  isHexMark mark = true ->
  hexDigits digits = true ->
  Number (toLowerCase (hexLiteral mark digits))
  = numberOfZ (digitsValue 16 digits).
Proof.
  intros Hmark Hd. unfold hexDigits in Hd.
  apply andb_true_iff in Hd as [Hne Hhex].
  destruct (digitsValue_toLowerCase digits Hhex) as [Hhex' Ev].
  assert (Elow : toLowerCase (hexLiteral mark digits)
                 = "0"%char :: "x"%char :: toLowerCase digits).
  { unfold hexLiteral, toLowerCase. cbn [map]. f_equal. f_equal.
    unfold isHexMark in Hmark. apply orb_true_iff in Hmark as [E|E];
      apply Ascii.eqb_eq in E; subst; reflexivity. }
  rewrite Elow. unfold Number.
  rewrite trim_solid.
  2:{ apply solid_no_whiteSpace. cbn [forallb]. 
      change (isWhiteSpace "0") with false. change (isWhiteSpace "x") with false.
      cbn [negb andb]. rewrite forallb_forall in *. intros c Hc.
      rewrite (hex_not_whiteSpace c (Hhex' c Hc)). reflexivity. }
  cbn [isEmpty]. unfold parseNumeric, parseNonDecimal.
  change (Ascii.eqb "0" "0") with true. cbv iota.
  change (nonDecimalBase "x") with (Some 16). cbv iota.
  assert (Hne' : isEmpty (toLowerCase digits) = false).
  { destruct digits; [discriminate Hne|reflexivity]. }
  rewrite Hne', Hhex', Ev. reflexivity.
Qed.

(** *** Decimal literals *)

Lemma decimalUnit_facts (c : ascii) :
  decimalUnit c = true ->
  nonDecimalBase c = None /\ isWhiteSpace c = false
  /\ c <> ";"%char /\ c <> ","%char /\ decimalUnit (lowerUnit c) = true.
Proof. by_units c. Qed.

Lemma digit_decimalUnit (c : ascii) : isDigit c = true -> decimalUnit c = true.
Proof. by_units c. Qed.

Lemma digit_facts (c : ascii) :
  isDigit c = true ->
  c <> "+"%char /\ c <> "-"%char /\ c <> "I"%char /\ c <> "."%char.
Proof. by_units c. Qed.

Lemma digits_decimalUnits (ds : jsstring) :
  forallb isDigit ds = true -> forallb decimalUnit ds = true.
Proof.
  rewrite !forallb_forall. intros H c Hc. apply digit_decimalUnit, H, Hc.
Qed.

Lemma signText_decimalUnits (s : Sign) :
  forallb decimalUnit (signText s) = true.
Proof. destruct s; reflexivity. Qed.

Lemma decimalText_units (d : DecimalLiteral) :
  wellFormed d = true -> forallb decimalUnit (decimalText d) = true.
Proof.
  unfold wellFormed, decimalText, fracOf. intros H.
  repeat (apply andb_true_iff in H as [H ?]).
  rewrite !forallb_app, signText_decimalUnits, digits_decimalUnits by exact H.
  cbn [andb]. apply andb_true_iff. split.
  - destruct (fracDigits d) as [ds|]; [|reflexivity]. cbn [fracText forallb].
    apply digits_decimalUnits. assumption.
  - destruct (expPart d) as [e|]; [|reflexivity].
    cbn [wellFormedExponent] in *. cbn [expText forallb].
    repeat match goal with
           | Hc : _ && _ = true |- _ => apply andb_true_iff in Hc as [Hc ?]
           end.
    rewrite forallb_app, signText_decimalUnits, digits_decimalUnits
      by assumption.
    rewrite andb_true_r. unfold decimalUnit.
    match goal with
    | Hm : _ || _ = true |- _ =>
        apply orb_true_iff in Hm as [Hm|Hm]; rewrite Hm
    end; rewrite ?orb_true_r; reflexivity.
Qed.

Lemma decimalText_not_empty (d : DecimalLiteral) :
  wellFormed d = true -> isEmpty (toLowerCase (decimalText d)) = false.
Proof.
  unfold wellFormed, decimalText, fracOf. intros H.
  repeat (apply andb_true_iff in H as [H ?]).
  destruct (litSign d); [|reflexivity..]. cbn [signText app].
  destruct (intDigits d) as [|c ds]; [|reflexivity]. cbn [app].
  destruct (fracDigits d) as [[|c ds]|]; [discriminate|reflexivity|discriminate].
Qed.

Lemma toLowerCase_app (a b : jsstring) :
  toLowerCase (a ++ b) = toLowerCase a ++ toLowerCase b.
Proof. apply map_app. Qed.

Lemma toLowerCase_digits (ds : jsstring) :
  forallb isDigit ds = true -> toLowerCase ds = ds.
Proof.
  induction ds as [|c ds IH]; simpl; intros H; [reflexivity|].
  apply andb_true_iff in H as [Hc Hds].
  rewrite (lowerUnit_digit c Hc). f_equal. exact (IH Hds).
Qed.

Lemma toLowerCase_signText (s : Sign) : toLowerCase (signText s) = signText s.
Proof. destruct s; reflexivity. Qed.

Lemma span_digits (ds rest : jsstring) :
  forallb isDigit ds = true ->
  noDigitAhead rest = true ->
  span isDigit (ds ++ rest) = (ds, rest).
Proof.
  intros Hds Hrest. induction ds as [|c ds IH].
  - destruct rest as [|c rest]; [reflexivity|]. simpl in *.
    apply negb_true_iff in Hrest. rewrite Hrest. reflexivity.
  - simpl in *. apply andb_true_iff in Hds as [Hc Hds].
    rewrite Hc, (IH Hds). reflexivity.
Qed.

Lemma span_all_digits (ds : jsstring) :
  forallb isDigit ds = true -> span isDigit ds = (ds, []).
Proof.
  intros H. pose proof (span_digits ds [] H eq_refl) as E.
  rewrite app_nil_r in E. exact E.
Qed.

Lemma parseSign_signText (s : Sign) (c : ascii) (rest : jsstring) :
  c <> "+"%char -> c <> "-"%char ->
  parseSign (signText s ++ c :: rest) = (isMinus s, c :: rest).
Proof.
  intros Hp Hm. destruct s; [|reflexivity..]. cbn [signText app parseSign].
  destruct (Ascii.eqb_spec c "-"); [contradiction|].
  destruct (Ascii.eqb_spec c "+"); [contradiction|]. reflexivity.
Qed.

Lemma parseExponent_expText (e : option ExponentPart) :
  wellFormedExponent e = true ->
  parseExponent (toLowerCase (expText e)) = Some (expValue e)
  /\ noDigitAhead (toLowerCase (expText e)) = true
  /\ (forall c r, toLowerCase (expText e) = c :: r -> c = "e"%char).
Proof.
  destruct e as [[mark sg ds]|]; [|intros _; repeat split; discriminate].
  cbn [wellFormedExponent expMark expSign expDigits expText expValue].
  intros H. apply andb_true_iff in H as [H Hds].
  apply andb_true_iff in H as [Hmark Hne].
  assert (Emark : lowerUnit mark = "e"%char).
  { apply orb_true_iff in Hmark as [E|E]; apply Ascii.eqb_eq in E; subst;
      reflexivity. }
  change (toLowerCase (mark :: signText sg ++ ds))
    with (lowerUnit mark :: toLowerCase (signText sg ++ ds)).
  rewrite Emark, toLowerCase_app, toLowerCase_signText,
    (toLowerCase_digits ds Hds).
  split; [|split; [reflexivity|intros c r E; inversion E; reflexivity]].
  cbn [parseExponent]. change (Ascii.eqb "e" "e") with true. cbn [orb].
  destruct ds as [|c ds]; [discriminate Hne|].
  pose proof Hds as Hds'. cbn [forallb] in Hds'.
  apply andb_true_iff in Hds' as [Hc _].
  destruct (digit_facts c Hc) as [Hp [Hm _]].
  rewrite (parseSign_signText sg c ds Hp Hm).
  rewrite (span_all_digits (c :: ds) Hds). reflexivity.
Qed.

Lemma parseUnsignedDecimal_text (neg : bool) (d : DecimalLiteral) :
  wellFormed d = true ->
  parseUnsignedDecimal neg
    (intDigits d ++ fracText (fracDigits d)
       ++ toLowerCase (expText (expPart d)))
  = Some (decimalToDouble neg
            (digitsValue 10 (intDigits d ++ fracOf d))
            (expValue (expPart d) - Z.of_nat (List.length (fracOf d)))).
Proof.
  destruct d as [sg ip f e]. unfold wellFormed, fracOf.
  cbn [intDigits fracDigits expPart litSign]. intros H.
  apply andb_true_iff in H as [H Hexp].
  apply andb_true_iff in H as [H Hne]. apply negb_true_iff in Hne.
  apply andb_true_iff in H as [Hip Hfp].
  destruct (parseExponent_expText e Hexp) as [Hparse [Hahead Hhead]].
  set (X := toLowerCase (expText e)) in *.
  unfold parseUnsignedDecimal.
  destruct (list_eq_dec ascii_dec (ip ++ fracText f ++ X) (lit "Infinity"))
    as [Einf|_].
  { exfalso. destruct ip as [|c ip].
    - destruct f as [[|c ds]|]; try discriminate Hne; discriminate Einf.
    - cbn [forallb] in Hip. apply andb_true_iff in Hip as [Hc _].
      destruct (digit_facts c Hc) as [_ [_ [HI _]]].
      apply HI. inversion Einf. reflexivity. }
  assert (Hahead' : noDigitAhead (fracText f ++ X) = true).
  { destruct f as [ds|]; [reflexivity|exact Hahead]. }
  rewrite (span_digits ip (fracText f ++ X) Hip Hahead').
  destruct f as [ds|].
  - cbn [fracText app]. change (Ascii.eqb "." ".") with true. cbv iota.
    rewrite (span_digits ds X Hfp Hahead).
    rewrite Hne, Hparse. reflexivity.
  - cbn [fracText app].
    assert (Espan : match X with
                    | [] => ([], X)
                    | c :: r =>
                        if Ascii.eqb c "." then span isDigit r else ([], X)
                    end = (@nil ascii, X)).
    { destruct X as [|c r] eqn:EX; [reflexivity|].
      rewrite (Hhead c r eq_refl). reflexivity. }
    rewrite Espan, Hne, Hparse. reflexivity.
Qed.

(** [Number] reads the text of a decimal literal, lower-cased as
    [parseMessage] lower-cases it, as the Number the literal denotes. *)
Lemma Number_decimalText (d : DecimalLiteral) :
  wellFormed d = true ->
  Number (toLowerCase (decimalText d)) = decimalNumber d.
Proof.
  intros Hwf. pose proof (decimalText_units d Hwf) as Hunits.
  assert (Hlow : forallb decimalUnit (toLowerCase (decimalText d)) = true).
  { rewrite forallb_forall in *. intros c Hc. unfold toLowerCase in Hc.
    apply in_map_iff in Hc as [c' [E Hin]]. subst c.
    apply decimalUnit_facts, Hunits, Hin. }
  unfold Number. rewrite trim_solid.
  2:{ apply solid_no_whiteSpace. rewrite forallb_forall in *.
      intros c Hc. destruct (decimalUnit_facts c (Hlow c Hc)) as [_ [E _]].
      rewrite E. reflexivity. }
  rewrite (decimalText_not_empty d Hwf).
  assert (Hnondec : parseNonDecimal (toLowerCase (decimalText d)) = None).
  { destruct (toLowerCase (decimalText d)) as [|z [|c ds]];
      [reflexivity..|].
    cbn [forallb] in Hlow. apply andb_true_iff in Hlow as [_ Hlow].
    apply andb_true_iff in Hlow as [Hc _].
    destruct (decimalUnit_facts c Hc) as [E _].
    unfold parseNonDecimal. rewrite E.
    destruct (Ascii.eqb z "0"); reflexivity. }
  unfold parseNumeric. rewrite Hnondec.
  pose proof (parseUnsignedDecimal_text (isMinus (litSign d)) d Hwf) as Hparse.
  unfold decimalText. rewrite toLowerCase_app, toLowerCase_signText.
  assert (Erest : toLowerCase
                    (intDigits d ++ fracText (fracDigits d)
                       ++ expText (expPart d))
                  = intDigits d ++ fracText (fracDigits d)
                      ++ toLowerCase (expText (expPart d))).
  { unfold wellFormed, fracOf in Hwf.
    repeat (apply andb_true_iff in Hwf as [Hwf ?]).
    rewrite !toLowerCase_app, (toLowerCase_digits _ Hwf). f_equal. f_equal.
    destruct (fracDigits d) as [ds|]; [|reflexivity].
    cbn [fracText]. change (toLowerCase ("."%char :: ds))
      with ("."%char :: toLowerCase ds).
    rewrite toLowerCase_digits by assumption. reflexivity. }
  rewrite Erest.
  assert (Ehead : exists c r,
             intDigits d ++ fracText (fracDigits d)
               ++ toLowerCase (expText (expPart d)) = c :: r
             /\ c <> "+"%char /\ c <> "-"%char).
  { unfold wellFormed, fracOf in Hwf.
    repeat (apply andb_true_iff in Hwf as [Hwf ?]).
    destruct (intDigits d) as [|c ds].
    - destruct (fracDigits d) as [[|c ds]|]; try discriminate.
      eexists _, _. split; [reflexivity|]. split; discriminate.
    - eexists _, _. split; [reflexivity|].
      cbn [forallb] in Hwf. apply andb_true_iff in Hwf as [Hc _].
      destruct (digit_facts c Hc) as [Hp [Hm _]]. tauto. }
  destruct Ehead as [c [r [E [Hp Hm]]]].
  rewrite E in *. rewrite (parseSign_signText _ c r Hp Hm).
  rewrite Hparse. reflexivity.
Qed.

Lemma toDouble_not_NaN (neg : bool) (n d : Z) : isNaN (toDouble neg n d) = false.
Proof.
  unfold toDouble. destruct (n =? 0); [reflexivity|].
  destruct (scaled n d (Z.max (Z.log2 n - Z.log2 d - 53) (-1074)))
    as [a0 b0].
  destruct (scaled n d _) as [a1 b1].
  destruct (roundHalfEven a1 b1 =? 2 ^ 53);
    match goal with |- context [971 <? ?e] => destruct (971 <? e) end;
    reflexivity.
Qed.

Lemma decimalNumber_not_NaN (d : DecimalLiteral) :
  isNaN (decimalNumber d) = false.
Proof.
  unfold decimalNumber, decimalToDouble.
  destruct (0 <=? _); apply toDouble_not_NaN.
Qed.

Lemma numberOfZ_not_NaN (n : Z) : isNaN (numberOfZ n) = false.
Proof. apply toDouble_not_NaN. Qed.

(* ================================================================= *)
(** ** Payloads of the wire format *)

Lemma includes_app_r (s y k : jsstring) :
  includes s k = true -> includes (s ++ y) k = true.
Proof. intros H. apply (includes_app [] s y k H). Qed.

Lemma includes_app_l (x s k : jsstring) :
  includes s k = true -> includes (x ++ s) k = true.
Proof.
  intros H. pose proof (includes_app x s [] k H) as E.
  rewrite app_nil_r in E. exact E.
Qed.

Lemma includes_cons (c : ascii) (s k : jsstring) :
  includes s k = true -> includes (c :: s) k = true.
Proof. intros H. apply (includes_app_l [c] s k H). Qed.

(** The keyword that occurs in a label occurs in the payload. *)
Ltac find_keyword H :=
  unfold toLowerCase in *; repeat (rewrite map_app || rewrite map_cons);
  repeat first
    [ exact H
    | apply includes_app_r; exact H
    | apply includes_app_r; apply includes_app_r; exact H
    | apply includes_app_l
    | apply includes_cons ].

Lemma fieldText_toLowerCase (messageValues : list jsstring) (i : nat) :
  fieldText (map toLowerCase messageValues) i
  = option_map toLowerCase (fieldText messageValues i).
Proof.
  unfold fieldText. rewrite nth_error_map.
  destruct (nth_error messageValues i) as [segment|]; [|reflexivity].
  cbn [option_map]. rewrite (split_toLowerCase "," segment lowerUnit_comma).
  rewrite nth_error_map.
  destruct (nth_error (split segment ",") 1) as [value|]; [|reflexivity].
  cbn [option_map]. rewrite trim_toLowerCase. reflexivity.
Qed.

(** The fields of the lower-cased payload are the fields of the payload,
    lower-cased. *)
Lemma fieldText_lowered (message : jsstring) (i : nat) :
  fieldText (split (toLowerCase message) ";") i
  = option_map toLowerCase (fieldText (split message ";") i).
Proof.
  rewrite (split_toLowerCase ";" message lowerUnit_semicolon).
  apply fieldText_toLowerCase.
Qed.

Lemma split_three (s0 s1 s2 rest : jsstring) :
  ~ In ";"%char s0 -> ~ In ";"%char s1 -> ~ In ";"%char s2 ->
  split (s0 ++ ";"%char :: s1 ++ ";"%char :: s2 ++ ";"%char :: rest) ";"
  = s0 :: s1 :: s2 :: split rest ";".
Proof.
  intros H0 H1 H2. rewrite !split_at_first by assumption. reflexivity.
Qed.

Lemma whiteSpace_clean (ws : jsstring) :
  forallb isWhiteSpace ws = true ->
  ~ In ";"%char ws /\ ~ In ","%char ws.
Proof.
  rewrite forallb_forall. intros H.
  split; intros Hin; apply H in Hin; discriminate Hin.
Qed.

Lemma decimalText_clean (d : DecimalLiteral) :
  wellFormed d = true ->
  ~ In ";"%char (decimalText d) /\ ~ In ","%char (decimalText d)
  /\ solid (decimalText d) = true.
Proof.
  intros Hwf. pose proof (decimalText_units d Hwf) as Hunits.
  rewrite forallb_forall in Hunits.
  split; [|split].
  - intros Hin. apply Hunits in Hin. discriminate Hin.
  - intros Hin. apply Hunits in Hin. discriminate Hin.
  - apply solid_no_whiteSpace. rewrite forallb_forall. intros c Hc.
    destruct (decimalUnit_facts c (Hunits c Hc)) as [_ [E _]].
    rewrite E. reflexivity.
Qed.

Lemma written_clean (f : WrittenField) :
  wellWritten f ->
  ~ In ";"%char (written f)
  /\ split (written f) ","
     = [label f; before f ++ decimalText (number f) ++ after f]
  /\ trim (before f ++ decimalText (number f) ++ after f)
     = decimalText (number f).
Proof.
  intros [Hl1 [Hl2 [Hb [Ha Hwf]]]].
  destruct (whiteSpace_clean _ Hb) as [Hb1 Hb2].
  destruct (whiteSpace_clean _ Ha) as [Ha1 Ha2].
  destruct (decimalText_clean _ Hwf) as [Hd1 [Hd2 Hsolid]].
  split; [|split].
  - unfold written. intros Hin.
    apply in_app_or in Hin as [Hin|[Hin|Hin]]; [tauto|discriminate Hin|].
    apply in_app_or in Hin as [Hin|Hin]; [tauto|].
    apply in_app_or in Hin as [Hin|Hin]; tauto.
  - unfold written. rewrite split_at_first by exact Hl2.
    rewrite split_without; [reflexivity|]. intros Hin.
    apply in_app_or in Hin as [Hin|Hin]; [tauto|].
    apply in_app_or in Hin as [Hin|Hin]; tauto.
  - apply trim_padded; assumption.
Qed.

Lemma fieldText_written (f : WrittenField) (messageValues : list jsstring)
    (i : nat) :
  wellWritten f ->
  nth_error messageValues i = Some (written f) ->
  fieldText messageValues i = Some (decimalText (number f)).
Proof.
  intros Hf Hnth. destruct (written_clean f Hf) as [_ [Hsplit Htrim]].
  unfold fieldText. rewrite Hnth, Hsplit. cbn [nth_error option_map].
  rewrite Htrim. reflexivity.
Qed.

(** C1. A payload of the wire format, three fields each closed by a
    semicolon, whose labels carry the words average, min and max in any
    letter case and whose values are decimal literals with any white space
    around them, is accepted: the Sample appended has the Numbers the three
    literals denote as its average, min and max, and its time is the clock
    reading made in the call, so not before the moment of the call. *)
Theorem parseMessage_well_formed (now called : Date) (w : App)
    (fa fm fx : WrittenField) (rest : jsstring) :
  called <= now ->
  wellWritten fa -> wellWritten fm -> wellWritten fx ->
  includes (toLowerCase (label fa)) (lit "average") = true ->
  includes (toLowerCase (label fm)) (lit "min") = true ->
  includes (toLowerCase (label fx)) (lit "max") = true ->
  exists sample,
    parseMessage now
      (written fa ++ ";"%char :: written fm ++ ";"%char :: written fx
         ++ ";"%char :: rest) w
    = Returned tt (withMessages (append (messages w) sample) w)
    /\ average sample = decimalNumber (number fa)
    /\ min sample = decimalNumber (number fm)
    /\ max sample = decimalNumber (number fx)
    /\ time sample = now
    /\ called <= time sample.
Proof.
  intros Hclock Hfa Hfm Hfx Ka Km Kx.
  set (message := written fa ++ ";"%char :: written fm ++ ";"%char
                    :: written fx ++ ";"%char :: rest).
  destruct (written_clean fa Hfa) as [Ha _].
  destruct (written_clean fm Hfm) as [Hm _].
  destruct (written_clean fx Hfx) as [Hx _].
  assert (Hsplit : split message ";"
                   = written fa :: written fm :: written fx
                       :: split rest ";")
    by (apply split_three; assumption).
  assert (Hk : hasKeywords message = true).
  { unfold hasKeywords, message, written.
    rewrite !andb_true_iff. repeat split.
    - find_keyword Ka.
    - find_keyword Km.
    - find_keyword Kx. }
  assert (Ta : fieldText (split (toLowerCase message) ";") 0
               = Some (toLowerCase (decimalText (number fa)))).
  { rewrite fieldText_lowered, (fieldText_written fa);
      [reflexivity|exact Hfa|rewrite Hsplit; reflexivity]. }
  assert (Tm : fieldText (split (toLowerCase message) ";") 1
               = Some (toLowerCase (decimalText (number fm)))).
  { rewrite fieldText_lowered, (fieldText_written fm);
      [reflexivity|exact Hfm|rewrite Hsplit; reflexivity]. }
  assert (Tx : fieldText (split (toLowerCase message) ";") 2
               = Some (toLowerCase (decimalText (number fx)))).
  { rewrite fieldText_lowered, (fieldText_written fx);
      [reflexivity|exact Hfx|rewrite Hsplit; reflexivity]. }
  rewrite (parseMessage_fields now message w _ _ _ Hk Ta Tm Tx).
  destruct Hfa as [_ [_ [_ [_ Wa]]]]. destruct Hfm as [_ [_ [_ [_ Wm]]]].
  destruct Hfx as [_ [_ [_ [_ Wx]]]].
  rewrite !Number_decimalText by assumption.
  unfold allNumeric. rewrite !decimalNumber_not_NaN. cbn [negb andb].
  eexists. split; [reflexivity|]. cbn. repeat split. exact Hclock.
Qed.

Lemma parseMessage_well_formed_witness :
  exists sample,
    parseMessage 1000 (lit "average,95.5 ; min , 40.2; max, 150.9;") initialApp
    = Returned tt (withMessages [sample] initialApp)
    /\ average sample = Finite false 6720215068966912 (-46)
    /\ min sample = Finite false 5657647031884186 (-47)
    /\ max sample = Finite false 5309321748204749 (-45)
    /\ time sample = 1000
    /\ 999 <= time sample.
Proof.
  assert (Hclock : 999 <= 1000) by lia.
  assert (Ha : wellWritten scenarioAverage)
    by (unfold wellWritten; vm_compute; intuition discriminate).
  assert (Hm : wellWritten scenarioMin)
    by (unfold wellWritten; vm_compute; intuition discriminate).
  assert (Hx : wellWritten scenarioMax)
    by (unfold wellWritten; vm_compute; intuition discriminate).
  destruct (parseMessage_well_formed 1000 999 initialApp
              scenarioAverage scenarioMin scenarioMax [] Hclock Ha Hm Hx
              eq_refl eq_refl eq_refl)
    as [sample [E [Fa [Fm [Fx [Ft Hc]]]]]].
  exists sample. split; [exact E|].
  split; [rewrite Fa; reflexivity|].
  split; [rewrite Fm; reflexivity|].
  split; [rewrite Fx; reflexivity|].
  split; [exact Ft|exact Hc].
Defined.

(* ================================================================= *)
(** ** Positional fields *)

Lemma upToFirst_without (sep : ascii) (s : jsstring) :
  ~ In sep s -> upToFirst sep s = s.
Proof.
  induction s as [|c s IH]; intros H; simpl; [reflexivity|].
  destruct (Ascii.eqb_spec c sep) as [->|_].
  - exfalso. apply H. left. reflexivity.
  - rewrite IH; [reflexivity|]. intros Hin. apply H. right. exact Hin.
Qed.

(** C2, as the claim has it, fails: with a second comma in a segment the
    text after the first comma is not what is converted.  Here the whole
    text after the first comma of segment 0 is [1,5], which is not a
    number, and yet the payload is accepted, with average 1. *)
Lemma value_stops_at_second_comma :
  hasKeywords (lit "Average, 1,5; Min, 2; Max, 3;") = true
  /\ split (toLowerCase (lit "Average, 1,5; Min, 2; Max, 3;")) ";"
     = [lit "average, 1,5"; lit " min, 2"; lit " max, 3"; []]
  /\ entireValue (lit "average, 1,5") = NaN
  /\ parseMessage 0 (lit "Average, 1,5; Min, 2; Max, 3;") initialApp
     = Returned tt
         (withMessages
            [sampleOf 0 (numberOfZ 1) (numberOfZ 2) (numberOfZ 3)]
            initialApp)
  /\ numberOfZ 1 <> entireValue (lit "average, 1,5").
Proof.
  repeat split; try (vm_compute; reflexivity).
  vm_compute. discriminate.
Qed.

(** C2, amended. With the three keywords and a comma in each of the first
    three segments of the lower-cased payload, segment 0 gives the
    average, segment 1 the min and segment 2 the max, whatever the labels
    say; the Number made of a segment is the trimmed text between its
    first comma and its second one, or its end when there is no second
    comma; a Sample with the three is appended when none is NaN, and
    nothing changes otherwise. *)
Theorem parseMessage_positional (now : Date) (message : jsstring) (w : App)
    (seg0 seg1 seg2 : jsstring) :
  hasKeywords message = true ->
  nth_error (split (toLowerCase message) ";") 0 = Some seg0 ->
  nth_error (split (toLowerCase message) ";") 1 = Some seg1 ->
  nth_error (split (toLowerCase message) ";") 2 = Some seg2 ->
  In ","%char seg0 -> In ","%char seg1 -> In ","%char seg2 ->
  fieldNumber (split (toLowerCase message) ";") 0 w
  = Returned (segmentValue seg0) w
  /\ fieldNumber (split (toLowerCase message) ";") 1 w
     = Returned (segmentValue seg1) w
  /\ fieldNumber (split (toLowerCase message) ";") 2 w
     = Returned (segmentValue seg2) w
  /\ parseMessage now message w
     = Returned tt
         (if allNumeric (segmentValue seg0) (segmentValue seg1)
                        (segmentValue seg2)
          then withMessages
                 (append (messages w)
                    {| time := now; min := segmentValue seg1;
                       max := segmentValue seg2;
                       average := segmentValue seg0 |}) w
          else w).
Proof.
  intros Hk N0 N1 N2 C0 C1 C2.
  pose proof (fieldText_comma _ 0 seg0 N0 C0) as T0.
  pose proof (fieldText_comma _ 1 seg1 N1 C1) as T1.
  pose proof (fieldText_comma _ 2 seg2 N2 C2) as T2.
  rewrite !fieldNumber_eq, T0, T1, T2.
  repeat split.
  rewrite (parseMessage_fields now message w _ _ _ Hk T0 T1 T2).
  reflexivity.
Qed.

Lemma parseMessage_positional_witness :
  parseMessage 7 (lit "Max, 1,5; Average, 2; Min, 0x3;") initialApp
  = Returned tt
      (withMessages
         [{| time := 7; min := numberOfZ 2; max := numberOfZ 3;
             average := numberOfZ 1 |}] initialApp).
Proof.
  destruct (parseMessage_positional 7
              (lit "Max, 1,5; Average, 2; Min, 0x3;") initialApp
              (lit "max, 1,5") (lit " average, 2") (lit " min, 0x3")
              eq_refl eq_refl eq_refl eq_refl)
    as [_ [_ [_ E]]].
  - vm_compute. tauto.
  - vm_compute. tauto.
  - vm_compute. tauto.
  - rewrite E. reflexivity.
Defined.

(* ================================================================= *)
(** ** Empty values *)

(** C9, as the claim has it, fails: an empty value does not make the
    payload accepted when another value is not a number.  Here the three
    keywords are there, the first three segments have a comma each and
    segment 0 has nothing after its comma; the payload is rejected. *)
Lemma empty_value_does_not_force_acceptance :
  hasKeywords (lit "average,;min,x;max,1") = true
  /\ split (toLowerCase (lit "average,;min,x;max,1")) ";"
     = [lit "average,"; lit "min,x"; lit "max,1"]
  /\ afterFirst "," (lit "average,") = []
  /\ parseMessage 0 (lit "average,;min,x;max,1") initialApp
     = Returned tt initialApp
  /\ messages (stateOf (parseMessage 0 (lit "average,;min,x;max,1")
                          initialApp)) = [].
Proof. repeat split. Qed.

(** C9, amended. With the three keywords and a comma in each of the first
    three segments, when segment [i] has nothing or white space only
    after its first comma and the other two values are numbers, the
    payload is accepted: the empty text is the Number +0, and the Sample
    appended has +0 in field [i]. *)
Theorem empty_value_is_zero (now : Date) (message : jsstring) (w : App)
    (seg0 seg1 seg2 : jsstring) (i : nat) :
  hasKeywords message = true ->
  nth_error (split (toLowerCase message) ";") 0 = Some seg0 ->
  nth_error (split (toLowerCase message) ";") 1 = Some seg1 ->
  nth_error (split (toLowerCase message) ";") 2 = Some seg2 ->
  In ","%char seg0 -> In ","%char seg1 -> In ","%char seg2 ->
  (i < 3)%nat ->
  forallb isWhiteSpace (afterFirst "," (nth i [seg0; seg1; seg2] [])) = true ->
  (forall j, (j < 3)%nat -> j <> i ->
     isNaN (segmentValue (nth j [seg0; seg1; seg2] [])) = false) ->
  exists sample,
    parseMessage now message w
    = Returned tt (withMessages (append (messages w) sample) w)
    /\ sampleField i sample = positiveZero
    /\ segmentValue (nth i [seg0; seg1; seg2] []) = positiveZero.
Proof.
  intros Hk N0 N1 N2 C0 C1 C2 Hi Hempty Hothers.
  pose proof (fieldText_comma _ 0 seg0 N0 C0) as T0.
  pose proof (fieldText_comma _ 1 seg1 N1 C1) as T1.
  pose proof (fieldText_comma _ 2 seg2 N2 C2) as T2.
  rewrite (parseMessage_fields now message w _ _ _ Hk T0 T1 T2).
  fold (segmentValue seg0) (segmentValue seg1) (segmentValue seg2).
  assert (Hzero : segmentValue (nth i [seg0; seg1; seg2] []) = positiveZero).
  { unfold segmentValue.
    destruct (whiteSpace_clean _ Hempty) as [_ Hnc].
    rewrite (upToFirst_without _ _ Hnc).
    rewrite (trim_all_whiteSpace _ Hempty). reflexivity. }
  assert (Hall : allNumeric (segmentValue seg0) (segmentValue seg1)
                            (segmentValue seg2) = true).
  { unfold allNumeric.
    assert (H0 : isNaN (segmentValue seg0) = false).
    { destruct (Nat.eq_dec 0 i) as [<-|Hne];
        [cbn [nth] in Hzero; rewrite Hzero; reflexivity|].
      apply (Hothers 0%nat); [lia|exact Hne]. }
    assert (H1 : isNaN (segmentValue seg1) = false).
    { destruct (Nat.eq_dec 1 i) as [<-|Hne];
        [cbn [nth] in Hzero; rewrite Hzero; reflexivity|].
      apply (Hothers 1%nat); [lia|exact Hne]. }
    assert (H2 : isNaN (segmentValue seg2) = false).
    { destruct (Nat.eq_dec 2 i) as [<-|Hne];
        [cbn [nth] in Hzero; rewrite Hzero; reflexivity|].
      apply (Hothers 2%nat); [lia|exact Hne]. }
    rewrite H0, H1, H2. reflexivity. }
  rewrite Hall. eexists. split; [reflexivity|]. split; [|exact Hzero].
  destruct i as [|[|[|i]]]; [exact Hzero..|lia].
Qed.

Lemma empty_value_is_zero_witness :
  exists sample,
    parseMessage 3 (lit "Average, 95; Min,   ; Max, 150;") initialApp
    = Returned tt (withMessages [sample] initialApp)
    /\ min sample = positiveZero.
Proof.
  destruct (empty_value_is_zero 3 (lit "Average, 95; Min,   ; Max, 150;")
              initialApp
              (lit "average, 95") (lit " min,   ") (lit " max, 150") 1
              eq_refl eq_refl eq_refl eq_refl)
    as [sample [E [Hz _]]].
  - vm_compute. tauto.
  - vm_compute. tauto.
  - vm_compute. tauto.
  - lia.
  - reflexivity.
  - intros [|[|[|j]]] Hj Hne; try lia; reflexivity.
  - exists sample. split; [exact E|exact Hz].
Defined.

(* ================================================================= *)
(** ** Hexadecimal values *)

Lemma digitOr0_nonneg (c : ascii) : 0 <= digitOr0 c.
Proof. by_units c. Qed.

Lemma digitsValue_nonneg (ds : jsstring) : 0 <= digitsValue 16 ds.
Proof.
  unfold digitsValue.
  assert (H : forall acc, 0 <= acc ->
            0 <= fold_left (fun acc c => acc * 16 + digitOr0 c) ds acc).
  { induction ds as [|c ds IH]; intros acc H; [exact H|].
    simpl. apply IH. pose proof (digitOr0_nonneg c). lia. }
  apply H. lia.
Qed.

(** [roundHalfEven] is the nearest integer, the even one of two equally
    near. *)
Lemma roundHalfEven_nearest (num den : Z) :
  0 < den ->
  num / den <= roundHalfEven num den <= num / den + 1
  /\ 2 * Z.abs (roundHalfEven num den * den - num) <= den
  /\ (2 * Z.abs (roundHalfEven num den * den - num) = den ->
      Z.even (roundHalfEven num den) = true).
Proof.
  intros Hden. unfold roundHalfEven.
  pose proof (Z.div_mod num den ltac:(lia)) as Hdm.
  pose proof (Z.mod_pos_bound num den Hden) as Hr.
  set (q := num / den) in *. set (r := num mod den) in *.
  destruct (Z.compare_spec (2 * r) den) as [E|L|G].
  - destruct (Z.even q) eqn:Ev.
    + split; [lia|]. split; [lia|]. intros _. exact Ev.
    + split; [lia|]. split; [lia|]. intros _.
      rewrite Z.even_add, Ev. reflexivity.
  - split; [lia|]. split; [lia|]. intros H. lia.
  - split; [lia|]. split; [lia|]. intros H. lia.
Qed.

(** An integer from 2^53 on is rounded to 53 bits, or to Infinity. *)
Lemma toDouble_large_integer (n : Z) :
  2 ^ 53 <= n -> roundedFrom n (toDouble false n 1).
Proof.
  intros Hn.
  assert (Hpos : 0 < n) by (assert (0 < 2 ^ 53) by reflexivity; lia).
  unfold toDouble.
  destruct (Z.eqb_spec n 0) as [->|_]; [lia|].
  change (Z.log2 1) with 0.
  pose proof (Z.log2_spec n Hpos) as [Hlo Hhi].
  assert (Hl : 53 <= Z.log2 n) by (apply Z.log2_le_pow2; assumption).
  set (l := Z.log2 n) in *.
  rewrite Z.max_l by lia. unfold scaled.
  destruct (Z.leb_spec 0 (l - 0 - 53)) as [_|Hbad]; [|lia].
  assert (Hsplit : 2 ^ l = 2 ^ (l - 0 - 53) * 2 ^ 53)
    by (rewrite <- Z.pow_add_r by lia; f_equal; lia).
  assert (Hp0 : 0 < 2 ^ (l - 0 - 53)) by (apply Z.pow_pos_nonneg; lia).
  destruct (Z.leb_spec (2 ^ 53) (n / (1 * 2 ^ (l - 0 - 53)))) as [_|Hbad].
  2:{ exfalso. rewrite Z.mul_1_l in Hbad.
      assert (2 ^ 53 <= n / 2 ^ (l - 0 - 53)); [|lia].
      apply Z.div_le_lower_bound; [exact Hp0|lia]. }
  destruct (Z.leb_spec 0 (l - 0 - 53 + 1)) as [_|Hbad]; [|lia].
  rewrite Z.mul_1_l.
  set (e := l - 0 - 53 + 1) in *.
  assert (He : 1 <= e) by (unfold e; lia).
  assert (HP : 0 < 2 ^ e) by (apply Z.pow_pos_nonneg; lia).
  assert (Hlo' : 2 ^ 52 * 2 ^ e <= n).
  { replace (2 ^ 52 * 2 ^ e) with (2 ^ l); [exact Hlo|].
    rewrite <- Z.pow_add_r by lia. f_equal. unfold e. lia. }
  assert (Hhi' : n < 2 ^ 53 * 2 ^ e).
  { replace (2 ^ 53 * 2 ^ e) with (2 ^ Z.succ l); [exact Hhi|].
    rewrite <- Z.pow_add_r by lia. f_equal. unfold e. lia. }
  destruct (roundHalfEven_nearest n (2 ^ e) HP) as [[Hm1 Hm2] [Herr Htie]].
  assert (Hq1 : 2 ^ 52 <= n / 2 ^ e)
    by (apply Z.div_le_lower_bound; [exact HP|lia]).
  assert (Hq2 : n / 2 ^ e < 2 ^ 53)
    by (apply Z.div_lt_upper_bound; [exact HP|lia]).
  set (m := roundHalfEven n (2 ^ e)) in *.
  assert (H2e : 2 ^ (e + 1) = 2 * 2 ^ e)
    by (rewrite Z.pow_add_r by lia; change (2 ^ 1) with 2; lia).
  destruct (Z.eqb_spec m (2 ^ 53)) as [Em|Nm].
  - destruct (Z.ltb_spec 971 (e + 1)) as [Hbig|Hfit]; cbn [roundedFrom].
    + split; [reflexivity|].
      assert (HP971 : 2 ^ 971 <= 2 ^ e) by (apply Z.pow_le_mono_r; lia).
      assert (H2n : (2 ^ 54 - 1) * 2 ^ e <= 2 * n).
      { rewrite Em in Herr. lia. }
      assert (Hc : 2 * (2 ^ 1024 - 2 ^ 970) = (2 ^ 54 - 1) * 2 ^ 971)
        by reflexivity.
      assert ((2 ^ 54 - 1) * 2 ^ 971 <= (2 ^ 54 - 1) * 2 ^ e)
        by (apply Z.mul_le_mono_nonneg_l; [discriminate|exact HP971]).
      lia.
    + split; [reflexivity|]. split; [split; [discriminate|reflexivity]|].
      split; [lia|]. intros _. split; [reflexivity|].
      rewrite H2e. rewrite Em in Herr.
      replace (2 ^ 52 * (2 * 2 ^ e) - n) with (2 ^ 53 * 2 ^ e - n)
        by (change (2 ^ 53) with (2 ^ 52 * 2); lia).
      split; [lia|]. intros Htie'. reflexivity.
  - destruct (Z.ltb_spec 971 e) as [Hbig|Hfit]; cbn [roundedFrom].
    + split; [reflexivity|].
      assert (HP1024 : 2 ^ 1024 <= 2 ^ l) by (apply Z.pow_le_mono_r; unfold e in Hbig; lia).
      assert (0 < 2 ^ 970) by reflexivity. lia.
    + split; [reflexivity|]. split; [lia|]. split; [lia|].
      intros _. split; [lia|]. split; [exact Herr|exact Htie].
Qed.

(** The Number for a non-negative integer is the one nearest to it. *)
Lemma numberOfZ_rounded (n : Z) : 0 <= n -> roundedFrom n (numberOfZ n).
Proof.
  intros Hn. unfold numberOfZ. rewrite Z.abs_eq by exact Hn.
  destruct (Z.ltb_spec n 0) as [Hneg|_]; [lia|].
  destruct (Z.lt_ge_cases n (2 ^ 53)) as [Hsmall|Hlarge];
    [|apply toDouble_large_integer; exact Hlarge].
  destruct (Z.eq_dec n 0) as [->|Hne].
  - cbn. repeat split; try reflexivity; try discriminate; intros H; lia.
  - rewrite toDouble_integer by lia.
    pose proof (Z.log2_nonneg n) as Hl0.
    assert (Hl52 : Z.log2 n <= 52).
    { apply Z.lt_succ_r. apply (Z.log2_lt_pow2 n 53); lia. }
    pose proof (Z.log2_spec n ltac:(lia)) as [Hlo Hhi].
    assert (Hk : 0 < 2 ^ (52 - Z.log2 n)) by (apply Z.pow_pos_nonneg; lia).
    assert (Hshift : n * 2 ^ (52 - Z.log2 n) < 2 ^ 53).
    { replace (2 ^ 53) with (2 ^ Z.succ (Z.log2 n) * 2 ^ (52 - Z.log2 n))
        by (rewrite <- Z.pow_add_r by lia; f_equal; lia).
      apply Z.mul_lt_mono_pos_r; assumption. }
    cbn [roundedFrom]. split; [reflexivity|]. split; [lia|].
    split; [|intros H; lia].
    intros _. f_equal. f_equal. lia.
Qed.

(** C10, as the claim has it, fails: a Number is a double, and an integer
    that needs more than 53 bits is rounded.  Here the three values are
    hexadecimal literals, the payload is accepted, and the average is
    9007199254740992 where the literal writes 9007199254740993. *)
Lemma hex_value_is_rounded :
  hasKeywords (lit "Average, 0x20000000000001; Min, 0x1; Max, 0x2;") = true
  /\ fieldText
       (split (lit "Average, 0x20000000000001; Min, 0x1; Max, 0x2;") ";") 0
     = Some (hexLiteral "x" (lit "20000000000001"))
  /\ fieldText
       (split (lit "Average, 0x20000000000001; Min, 0x1; Max, 0x2;") ";") 1
     = Some (hexLiteral "x" (lit "1"))
  /\ fieldText
       (split (lit "Average, 0x20000000000001; Min, 0x1; Max, 0x2;") ";") 2
     = Some (hexLiteral "x" (lit "2"))
  /\ digitsValue 16 (lit "20000000000001") = 9007199254740993
  /\ exists sample q,
       parseMessage 0 (lit "Average, 0x20000000000001; Min, 0x1; Max, 0x2;")
         initialApp
       = Returned tt (withMessages [sample] initialApp)
       /\ numberValue (average sample) = Some q
       /\ (q == inject_Z 9007199254740992)%Q
       /\ ~ (q == inject_Z 9007199254740993)%Q.
Proof.
  split; [reflexivity|]. split; [reflexivity|]. split; [reflexivity|].
  split; [reflexivity|]. split; [reflexivity|].
  eexists. eexists. split; [vm_compute; reflexivity|].
  split; [vm_compute; reflexivity|]. split.
  - vm_compute. reflexivity.
  - intros H. vm_compute in H. discriminate H.
Qed.

(** C10, amended. With the three keywords, when the first three values of
    the payload as sent are hexadecimal literals, [0x] or [0X] and
    hexadecimal digits in either letter case, the payload is accepted and
    each field of the Sample appended is the Number nearest to the
    integer its literal writes, ties to even: the integer itself when it
    is below 2^53, a Number within half a unit of the last place of it
    past that, and Infinity from 2^1024 - 2^970 on. *)
Theorem hex_values_accepted (now : Date) (message : jsstring) (w : App)
    (mark0 mark1 mark2 : ascii) (hex0 hex1 hex2 : jsstring) :
  hasKeywords message = true ->
  fieldText (split message ";") 0 = Some (hexLiteral mark0 hex0) ->
  fieldText (split message ";") 1 = Some (hexLiteral mark1 hex1) ->
  fieldText (split message ";") 2 = Some (hexLiteral mark2 hex2) ->
  isHexMark mark0 = true -> isHexMark mark1 = true ->
  isHexMark mark2 = true ->
  hexDigits hex0 = true -> hexDigits hex1 = true -> hexDigits hex2 = true ->
  exists sample,
    parseMessage now message w
    = Returned tt (withMessages (append (messages w) sample) w)
    /\ average sample = numberOfZ (digitsValue 16 hex0)
    /\ min sample = numberOfZ (digitsValue 16 hex1)
    /\ max sample = numberOfZ (digitsValue 16 hex2)
    /\ (forall i hex,
          nth_error [hex0; hex1; hex2] i = Some hex ->
          roundedFrom (digitsValue 16 hex) (sampleField i sample))
    /\ (forall i hex,
          nth_error [hex0; hex1; hex2] i = Some hex ->
          digitsValue 16 hex < 2 ^ 53 ->
          exists q,
            numberValue (sampleField i sample) = Some q
            /\ (q == inject_Z (digitsValue 16 hex))%Q).
Proof.
  intros Hk T0 T1 T2 M0 M1 M2 D0 D1 D2.
  assert (L0 : fieldText (split (toLowerCase message) ";") 0
               = Some (toLowerCase (hexLiteral mark0 hex0)))
    by (rewrite fieldText_lowered, T0; reflexivity).
  assert (L1 : fieldText (split (toLowerCase message) ";") 1
               = Some (toLowerCase (hexLiteral mark1 hex1)))
    by (rewrite fieldText_lowered, T1; reflexivity).
  assert (L2 : fieldText (split (toLowerCase message) ";") 2
               = Some (toLowerCase (hexLiteral mark2 hex2)))
    by (rewrite fieldText_lowered, T2; reflexivity).
  rewrite (parseMessage_fields now message w _ _ _ Hk L0 L1 L2).
  rewrite !Number_hexLiteral by assumption.
  unfold allNumeric. rewrite !numberOfZ_not_NaN. cbn [negb andb].
  eexists. split; [reflexivity|]. cbn [average min max sampleOf].
  do 3 (split; [reflexivity|]).
  assert (Hfield : forall i hex,
            nth_error [hex0; hex1; hex2] i = Some hex ->
            sampleField i
              (sampleOf now (numberOfZ (digitsValue 16 hex0))
                 (numberOfZ (digitsValue 16 hex1))
                 (numberOfZ (digitsValue 16 hex2)))
            = numberOfZ (digitsValue 16 hex)).
  { intros i hex Hnth.
    destruct i as [|[|[|i]]]; cbn [nth_error] in Hnth;
      [inversion Hnth; subst; reflexivity..|].
    destruct i; discriminate Hnth. }
  split.
  - intros i hex Hnth. rewrite (Hfield i hex Hnth).
    apply numberOfZ_rounded. apply digitsValue_nonneg.
  - intros i hex Hnth Hlt. rewrite (Hfield i hex Hnth).
    apply numberOfZ_exact. split; [apply digitsValue_nonneg|exact Hlt].
Qed.

Lemma hex_values_accepted_witness :
  exists sample,
    parseMessage 5 (lit "Average, 0X5f; Min, 0x28 ; Max,0x20000000000001;")
      initialApp
    = Returned tt (withMessages [sample] initialApp)
    /\ average sample = numberOfZ 95
    /\ min sample = numberOfZ 40
    /\ max sample = Finite false (2 ^ 52) 1
    /\ roundedFrom 9007199254740993 (max sample).
Proof.
  destruct (hex_values_accepted 5
              (lit "Average, 0X5f; Min, 0x28 ; Max,0x20000000000001;")
              initialApp
              "X" "x" "x" (lit "5f") (lit "28") (lit "20000000000001")
              eq_refl eq_refl eq_refl eq_refl eq_refl eq_refl eq_refl
              eq_refl eq_refl eq_refl)
    as [sample [E [Fa [Fm [Fx [Hr _]]]]]].
  exists sample. split; [exact E|]. split; [exact Fa|].
  split; [exact Fm|]. split; [rewrite Fx; reflexivity|].
  exact (Hr 2%nat (lit "20000000000001") eq_refl).
Defined.

(* ================================================================= *)
(** ** What [parseMessage] leaves alone *)

Lemma withMessages_same (w : App) : withMessages (messages w) w = w.
Proof. destruct w. reflexivity. Qed.

(** The state a call leaves is the state it found with the Samples the
    payload emits put at the end of the series. *)
Lemma parseMessage_state (now : Date) (message : jsstring) (w : App) :
  stateOf (parseMessage now message w)
  = withMessages (messages w ++ emitted now message) w.
Proof.
  unfold emitted.
  destruct (hasKeywords message) eqn:Hk.
  2:{ rewrite !(parseMessage_no_keywords now message _ Hk). cbn.
      rewrite app_nil_r, withMessages_same. reflexivity. }
  assert (Hthrow : forall i, (i < 3)%nat ->
            fieldText (split (toLowerCase message) ";") i = None ->
            stateOf (parseMessage now message w)
            = withMessages
                (messages w
                   ++ messages (stateOf (parseMessage now message initialApp)))
                w).
  { intros i Hi E.
    rewrite !(parseMessage_undefined_field now message _ i Hk Hi E). cbn.
    rewrite app_nil_r, withMessages_same. reflexivity. }
  destruct (fieldText (split (toLowerCase message) ";") 0) as [ta|] eqn:Ea;
    [|apply (Hthrow 0%nat); [lia|exact Ea]].
  destruct (fieldText (split (toLowerCase message) ";") 1) as [tm|] eqn:Em;
    [|apply (Hthrow 1%nat); [lia|exact Em]].
  destruct (fieldText (split (toLowerCase message) ";") 2) as [tx|] eqn:Ex;
    [|apply (Hthrow 2%nat); [lia|exact Ex]].
  rewrite !(parseMessage_fields now message _ ta tm tx Hk Ea Em Ex).
  destruct (allNumeric (Number ta) (Number tm) (Number tx)); cbn.
  - reflexivity.
  - rewrite app_nil_r, withMessages_same. reflexivity.
Qed.

Lemma emitted_shape (now : Date) (message : jsstring) :
  emitted now message = []
  \/ exists s, emitted now message = [s] /\ time s = now
               /\ sampleNumeric s = true.
Proof.
  unfold emitted.
  destruct (hasKeywords message) eqn:Hk;
    [|left; rewrite (parseMessage_no_keywords now message _ Hk);
      reflexivity].
  assert (Hthrow : forall i, (i < 3)%nat ->
            fieldText (split (toLowerCase message) ";") i = None ->
            messages (stateOf (parseMessage now message initialApp)) = []).
  { intros i Hi E.
    rewrite (parseMessage_undefined_field now message _ i Hk Hi E).
    reflexivity. }
  destruct (fieldText (split (toLowerCase message) ";") 0) as [ta|] eqn:Ea;
    [|left; apply (Hthrow 0%nat); [lia|exact Ea]].
  destruct (fieldText (split (toLowerCase message) ";") 1) as [tm|] eqn:Em;
    [|left; apply (Hthrow 1%nat); [lia|exact Em]].
  destruct (fieldText (split (toLowerCase message) ";") 2) as [tx|] eqn:Ex;
    [|left; apply (Hthrow 2%nat); [lia|exact Ex]].
  rewrite (parseMessage_fields now message _ ta tm tx Hk Ea Em Ex).
  destruct (allNumeric (Number ta) (Number tm) (Number tx)) eqn:Hall;
    [|left; reflexivity].
  right. eexists. split; [reflexivity|]. split; [reflexivity|exact Hall].
Qed.

(** X1. However a call of [parseMessage] ends, by returning or by a
    TypeError, the state it leaves differs from the state it found in the
    series at most: the broker URL, the topic, the connection state, the
    status, the latest-message cells, the client held and the library
    trace are untouched.  The series keeps all its Samples and gains one
    at most, at its end, stamped with the clock reading of the call and
    with no NaN in it; whether it gains one depends on the payload alone,
    not on the state. *)
Theorem parseMessage_frame (now : Date) (message : jsstring) (w : App) :
  stateOf (parseMessage now message w)
  = withMessages (messages w ++ emitted now message) w
  /\ (List.length (emitted now message) <= 1)%nat
  /\ Forall (fun s => time s = now /\ sampleNumeric s = true)
            (emitted now message).
Proof.
  split; [apply parseMessage_state|].
  destruct (emitted_shape now message) as [E|[s [E [Ht Hn]]]]; rewrite E.
  - split; [simpl; lia|constructor].
  - split; [simpl; lia|]. constructor; [tauto|constructor].
Qed.

(* ================================================================= *)
(** ** The series along a run of the event loop *)

Lemma perform_messages (a : Action) (w : App) :
  exists added,
    messages (stateOf (perform a w)) = messages w ++ added
    /\ (List.length added <= if feedsSeries a then 1 else 0)%nat
    /\ Forall (fun s => sampleNumeric s = true) added.
Proof.
  assert (Hparse : forall now message v,
            messages v = messages w ->
            exists added,
              messages (stateOf (parseMessage now message v))
              = messages w ++ added
              /\ (List.length added <= 1)%nat
              /\ Forall (fun s => sampleNumeric s = true) added).
  { intros now message v Hv. exists (emitted now message).
    rewrite parseMessage_state. cbn. rewrite Hv.
    split; [reflexivity|].
    destruct (emitted_shape now message) as [E|[s [E [_ Hn]]]]; rewrite E.
    - split; [simpl; lia|constructor].
    - split; [simpl; lia|]. constructor; [exact Hn|constructor]. }
  assert (Hnone : forall v, messages v = messages w ->
            exists added,
              messages v = messages w ++ added
              /\ (List.length added <= 0)%nat
              /\ Forall (fun s => sampleNumeric s = true) added).
  { intros v Hv. exists []. rewrite app_nil_r.
    split; [exact Hv|]. split; [simpl; lia|constructor]. }
  destruct a as [v|v|endThrows|endThrows|now a m x|c ev]; cbn [feedsSeries].
  - apply Hnone. reflexivity.
  - apply Hnone. reflexivity.
  - apply Hnone. cbn [perform].
    destruct (startsWith (brokerUrl w) (lit "wss://")) eqn:Hurl.
    + destruct (connect_secure_eq endThrows w Hurl) as [w' [E [_ [_ Hm]]]].
      rewrite E. exact Hm.
    + rewrite (connect_insecure_eq endThrows w Hurl). reflexivity.
  - apply Hnone. cbn [perform]. rewrite disconnect_eq.
    destruct (clientRef w); reflexivity.
  - cbn [perform]. unfold testMessage. apply Hparse. reflexivity.
  - cbn [perform]. unfold emit, bind, get.
    destruct (find (fun l => Nat.eqb (fst l) c) (listeners w)) as [[c' tp]|].
    2:{ destruct ev; [apply Hnone; reflexivity..|].
        destruct (Hnone w eq_refl) as [added [E [Hl Hf]]].
        exists added. split; [exact E|]. split; [lia|exact Hf]. }
    destruct ev as [|[err|]| | | |err|msgTopic payload received parsed];
      try (apply Hnone; reflexivity).
    cbn [listener]. unfold bind, setLatestTopic, setLatestTime,
      setLatestRaw, modify.
    apply Hparse. reflexivity.
Qed.

(** X2. Along every run of the event loop the series only grows: what it
    held at the start stays at the front, unchanged and in order, whatever
    is clicked and whatever the clients emit (connecting and disconnecting
    never clear it); it gains one Sample at most for each click on Test
    and each message, and none otherwise; and no Sample that enters it has
    a NaN field. *)
Theorem series_only_grows (acts : list Action) (w : App) :
  exists added,
    messages (runActions acts w) = messages w ++ added
    /\ (List.length added <= List.length (filter feedsSeries acts))%nat
    /\ Forall (fun s => sampleNumeric s = true) added.
Proof.
  revert w. induction acts as [|a acts IH]; intros w.
  - exists []. rewrite app_nil_r. split; [reflexivity|].
    split; [simpl; lia|constructor].
  - cbn [runActions fold_left].
    destruct (perform_messages a w) as [added1 [E1 [L1 F1]]].
    destruct (IH (stateOf (perform a w))) as [added2 [E2 [L2 F2]]].
    exists (added1 ++ added2). unfold runActions in E2.
    rewrite E2, E1, app_assoc. split; [reflexivity|]. split.
    + rewrite length_app. cbn [filter].
      destruct (feedsSeries a); simpl in *; lia.
    + apply Forall_app. split; assumption.
Qed.

(* ================================================================= *)
(** ** What of a payload matters *)

Lemma lowerUnit_idempotent (c : ascii) : lowerUnit (lowerUnit c) = lowerUnit c.
Proof. by_units c. Qed.

Lemma toLowerCase_idempotent (s : jsstring) :
  toLowerCase (toLowerCase s) = toLowerCase s.
Proof.
  unfold toLowerCase. rewrite map_map. apply map_ext.
  apply lowerUnit_idempotent.
Qed.

(** X3. The letter case of a payload plays no part: the payload and its
    lower-cased text are treated alike, in the outcome of the call and in
    the state it leaves. *)
Theorem parseMessage_case_insensitive (now : Date) (message : jsstring)
    (w : App) :
  parseMessage now (toLowerCase message) w = parseMessage now message w.
Proof.
  unfold parseMessage, hasKeywords.
  rewrite !toLowerCase_idempotent. reflexivity.
Qed.

(** Two payloads with the same keyword test and the same first three
    fields are treated alike. *)
Lemma parseMessage_ext (now : Date) (m1 m2 : jsstring) (w : App) :
  hasKeywords m1 = hasKeywords m2 ->
  (forall i, (i < 3)%nat ->
     fieldText (split (toLowerCase m1) ";") i
     = fieldText (split (toLowerCase m2) ";") i) ->
  parseMessage now m1 w = parseMessage now m2 w.
Proof.
  intros Hk Hf. unfold parseMessage. rewrite Hk.
  destruct (hasKeywords m2); [|reflexivity].
  unfold bind. rewrite !fieldNumber_eq.
  rewrite (Hf 0%nat) by lia.
  destruct (fieldText (split (toLowerCase m2) ";") 0); [|reflexivity].
  rewrite !fieldNumber_eq. rewrite (Hf 1%nat) by lia.
  destruct (fieldText (split (toLowerCase m2) ";") 1); [|reflexivity].
  rewrite !fieldNumber_eq. rewrite (Hf 2%nat) by lia.
  destruct (fieldText (split (toLowerCase m2) ";") 2); reflexivity.
Qed.

Lemma hasKeywords_app_r (m rest : jsstring) :
  hasKeywords m = true -> hasKeywords (m ++ rest) = true.
Proof.
  unfold hasKeywords. rewrite toLowerCase_app, !andb_true_iff.
  intros [[Ha Hm] Hx]. repeat split; apply includes_app_r; assumption.
Qed.

(** X4. What follows the third semicolon is never read: when the first
    three segments carry the keywords, a payload with anything after them
    is treated as the three segments alone. *)
Theorem parseMessage_ignores_tail (now : Date) (s0 s1 s2 rest : jsstring)
    (w : App) :
  ~ In ";"%char s0 -> ~ In ";"%char s1 -> ~ In ";"%char s2 ->
  hasKeywords (s0 ++ ";"%char :: s1 ++ ";"%char :: s2) = true ->
  parseMessage now
    (s0 ++ ";"%char :: s1 ++ ";"%char :: s2 ++ ";"%char :: rest) w
  = parseMessage now (s0 ++ ";"%char :: s1 ++ ";"%char :: s2) w.
Proof.
  intros H0 H1 H2 Hk. apply parseMessage_ext.
  - rewrite Hk.
    replace (s0 ++ ";"%char :: s1 ++ ";"%char :: s2 ++ ";"%char :: rest)
      with ((s0 ++ ";"%char :: s1 ++ ";"%char :: s2)
              ++ ";"%char :: rest)
      by (rewrite <- !app_assoc; cbn [app]; rewrite <- !app_assoc;
          reflexivity).
    apply hasKeywords_app_r. exact Hk.
  - intros i Hi. rewrite !fieldText_lowered. f_equal.
    rewrite split_three by assumption.
    rewrite !split_at_first by assumption.
    rewrite (split_without ";" s2 H2).
    unfold fieldText.
    destruct i as [|[|[|i]]]; [reflexivity..|lia].
Qed.

Lemma parseMessage_ignores_tail_witness :
  parseMessage 9
    (lit "Average, 95; Min, 40; Max, 150; Peak, none; and so on") initialApp
  = Returned tt
      (withMessages
         [sampleOf 9 (numberOfZ 95) (numberOfZ 40) (numberOfZ 150)]
         initialApp).
Proof.
  assert (H0 : ~ In ";"%char (lit "Average, 95"))
    by (vm_compute; intuition discriminate).
  assert (H1 : ~ In ";"%char (lit " Min, 40"))
    by (vm_compute; intuition discriminate).
  assert (H2 : ~ In ";"%char (lit " Max, 150"))
    by (vm_compute; intuition discriminate).
  etransitivity.
  - exact (parseMessage_ignores_tail 9 (lit "Average, 95") (lit " Min, 40")
             (lit " Max, 150") (lit " Peak, none; and so on") initialApp
             H0 H1 H2 eq_refl).
  - vm_compute. reflexivity.
Defined.

(** The acceptance test, said with substrings: it passes exactly when
    each of the words average, min and max occurs somewhere in the
    lower-cased payload. *)
Theorem hasKeywords_iff (message : jsstring) :
  hasKeywords message = true <->
  (exists x y, toLowerCase message = x ++ lit "average" ++ y)
  /\ (exists x y, toLowerCase message = x ++ lit "min" ++ y)
  /\ (exists x y, toLowerCase message = x ++ lit "max" ++ y).
Proof.
  unfold hasKeywords. rewrite !andb_true_iff, !includes_iff. tauto.
Qed.

(* ================================================================= *)
(** ** Disconnecting and connecting *)

(** X6. [disconnect] never raises, whatever [end] does, and leaves no
    client held, the connected flag down and the status Disconnected; the
    one library call it makes is [end(true)] on the client held, and none
    when no client is held; the series is not touched.  Calling it again
    changes nothing and calls nothing. *)
Theorem disconnect_idempotent (endThrows again : bool) (w : App) :
  exists w1,
    disconnect endThrows w = Returned tt w1
    /\ clientRef w1 = None
    /\ isConnected w1 = false
    /\ status w1 = lit "Disconnected"
    /\ libCalls w1 = libCalls w ++ teardown endThrows w
    /\ messages w1 = messages w
    /\ disconnect again w1 = Returned tt w1.
Proof.
  rewrite disconnect_eq. eexists. split; [reflexivity|].
  unfold teardown.
  destruct (clientRef w) as [c|] eqn:Ec; cbn [clientRef isConnected status
    libCalls messages withStatus withIsConnected withClientRef withLibCalls];
    rewrite ?Ec, ?app_nil_r;
    do 5 (split; [reflexivity|]); rewrite disconnect_eq; cbn;
    rewrite ?Ec; reflexivity.
Qed.

(** The state [connect] leaves when the URL passes its test. *)
Lemma connect_secure_state (endThrows : bool) (w : App) :
  startsWith (brokerUrl w) (lit "wss://") = true ->
  connect endThrows w
  = Returned tt
      (withListeners
         ((List.length (libCalls w ++ teardown endThrows w), topic w)
            :: listeners w)
         (withClientRef
            (Some (List.length (libCalls w ++ teardown endThrows w)))
            (withLibCalls
               (libCalls w ++ teardown endThrows w
                  ++ [MqttConnect (brokerUrl w)
                        (List.length (libCalls w ++ teardown endThrows w))])
               (withStatus
                  (lit "Connecting to " ++ brokerUrl w ++ lit " ...")
                  (withIsConnected false w))))).
Proof.
  intros Hurl. unfold connect. unfold bind at 1. unfold get at 1.
  rewrite Hurl. cbn [negb]. unfold bind at 1. rewrite disconnect_eq.
  unfold teardown.
  destruct (clientRef w) as [c|] eqn:Ec; cbn;
    rewrite ?app_nil_r, <- ?app_assoc; reflexivity.
Qed.

Lemma find_listener_head (c : Client) (tp : jsstring)
    (ls : list (Client * jsstring)) :
  find (fun l => Nat.eqb (fst l) c) ((c, tp) :: ls) = Some (c, tp).
Proof. cbn [find fst]. rewrite Nat.eqb_refl. reflexivity. Qed.

(** X7. A connection in three steps.  From any state, with a URL that
    starts with [wss://], [connect] holds the new client, lowers the
    connected flag and reports that it is connecting to that URL.  When
    the new client then emits its connect event the flag goes up and
    the client is subscribed to the topic that stood in the form when
    [connect] ran, not to what has been typed since; and when the
    subscription is granted the status names that same topic. *)
Theorem subscription_uses_topic_at_connect (w : App) (host typed : jsstring)
    (endThrows : bool) :
  let w0 := withBrokerUrl (lit "wss://" ++ host) w in
  let c := List.length (libCalls w ++ teardown endThrows w) in
  let w1 := stateOf (connect endThrows w0) in
  let w2 := stateOf (emit c Connected (withTopic typed w1)) in
  let w3 := stateOf (emit c (Subscribed None) w2) in
  clientRef w1 = Some c
  /\ isConnected w1 = false
  /\ status w1 = lit "Connecting to " ++ (lit "wss://" ++ host) ++ lit " ..."
  /\ isConnected w2 = true
  /\ status w2 = lit "Connected. Subscribing..."
  /\ libCalls w2 = libCalls w1 ++ [ClientSubscribe c (topic w)]
  /\ status w3 = lit "Subscribed to: " ++ topic w
  /\ topic w3 = typed.
Proof.
  intros w0 c w1 w2 w3.
  assert (Hurl : startsWith (brokerUrl w0) (lit "wss://") = true)
    by (apply (startsWith_app (lit "wss://") (lit "wss://") host);
        reflexivity).
  pose proof (connect_secure_state endThrows w0 Hurl) as E1.
  change (List.length (libCalls w0 ++ teardown endThrows w0)) with c in E1.
  subst w3 w2 w1. rewrite E1. clear E1. clearbody c.
  unfold emit, bind, get. cbn. rewrite !Nat.eqb_refl. cbn.
  rewrite ?Nat.eqb_refl. cbn. repeat split.
Qed.

(* ================================================================= *)
(** ** Messages as they arrive *)

(** X8. The message listener records every message, accepted or not: the
    topic, the time of receipt and the raw text become the latest ones
    whether [parseMessage] then appends a Sample, rejects the payload or
    is left by a TypeError; a payload that is [null] or [undefined]
    counts as the empty text and adds nothing.  The series changes as
    [parseMessage] alone would change it, and nothing else changes. *)
Theorem message_listener_records (client : Client) (tp msgTopic : jsstring)
    (payload : option jsstring) (received parsed : Date) (w : App) :
  let raw := match payload with Some p => p | None => [] end in
  stateOf (listener client tp (Message msgTopic payload received parsed) w)
  = withMessages (messages w ++ emitted parsed raw)
      (withLatestRaw raw
         (withLatestTime (Some received) (withLatestTopic msgTopic w)))
  /\ emitted parsed [] = [].
Proof.
  intros raw. split.
  - cbn [listener]. unfold bind, setLatestTopic, setLatestTime,
      setLatestRaw, modify. fold raw. rewrite parseMessage_state.
    reflexivity.
  - reflexivity.
Qed.

(* ================================================================= *)
(** ** Clients that have been replaced *)

Lemma parseMessage_listeners (now : Date) (message : jsstring) (w : App) :
  listeners (stateOf (parseMessage now message w)) = listeners w.
Proof. rewrite parseMessage_state. reflexivity. Qed.

Lemma listener_listeners (c : Client) (tp : jsstring) (ev : ClientEvent)
    (w : App) :
  listeners (stateOf (listener c tp ev w)) = listeners w.
Proof.
  destruct ev as [|[err|]| | | |err|msgTopic payload received parsed];
    try reflexivity.
  cbn [listener]. unfold bind, setLatestTopic, setLatestTime, setLatestRaw,
    modify.
  rewrite parseMessage_listeners. reflexivity.
Qed.

(** No action removes a listener, and a client is created with its
    listeners. *)
Lemma perform_listened (a : Action) (w : App) :
  (forall c, created w c -> listened w c = true) ->
  forall c, created (stateOf (perform a w)) c ->
            listened (stateOf (perform a w)) c = true.
Proof.
  intros Hinv c [url Hin].
  assert (Hkeep : forall w',
            listeners w' = listeners w ->
            (In (MqttConnect url c) (libCalls w') ->
             In (MqttConnect url c) (libCalls w)) ->
            In (MqttConnect url c) (libCalls w') ->
            listened w' c = true).
  { intros w' Hl Hc Hin'. unfold listened. rewrite Hl.
    apply Hinv. exists url. apply Hc. exact Hin'. }
  destruct a as [v|v|endThrows|endThrows|now a m x|c' ev].
  - apply Hkeep; [reflexivity|tauto|exact Hin].
  - apply Hkeep; [reflexivity|tauto|exact Hin].
  - cbn [perform] in *.
    destruct (startsWith (brokerUrl w) (lit "wss://")) eqn:Hurl.
    + rewrite (connect_secure_state endThrows w Hurl) in *.
      cbn [stateOf libCalls withListeners withClientRef withLibCalls] in Hin.
      unfold listened. cbn [stateOf listeners withListeners existsb fst].
      apply in_app_or in Hin as [Hin|Hin].
      * apply orb_true_iff. right. apply Hinv. exists url. exact Hin.
      * apply in_app_or in Hin as [Hin|[Hin|[]]].
        -- unfold teardown in Hin.
           destruct (clientRef w); [destruct Hin as [Hin|[]]|destruct Hin];
             discriminate Hin.
        -- inversion Hin; subst. rewrite Nat.eqb_refl. reflexivity.
    + rewrite (connect_insecure_eq endThrows w Hurl) in *.
      apply Hkeep; [reflexivity|tauto|exact Hin].
  - cbn [perform] in *. rewrite disconnect_eq in *.
    apply Hkeep; [destruct (clientRef w); reflexivity| |exact Hin].
    destruct (clientRef w) as [held|]; cbn; [|tauto].
    intros H. apply in_app_or in H as [H|[H|[]]]; [exact H|discriminate H].
  - cbn [perform] in *. unfold testMessage in *.
    apply Hkeep; [apply parseMessage_listeners| |exact Hin].
    rewrite parseMessage_libCalls. tauto.
  - cbn [perform] in *. unfold emit, bind, get in *.
    destruct (find (fun l => Nat.eqb (fst l) c') (listeners w))
      as [[c'' tp]|]; [|apply Hkeep; [reflexivity|tauto|exact Hin]].
    apply Hkeep; [apply listener_listeners| |exact Hin].
    destruct ev as [|[err|]| | | |err|msgTopic payload received parsed];
      try (cbn; tauto).
    + cbn. intros H. apply in_app_or in H as [H|[H|[]]];
        [exact H|discriminate H].
    + cbn [listener]. unfold bind, setLatestTopic, setLatestTime,
        setLatestRaw, modify.
      rewrite parseMessage_libCalls. cbn. tauto.
Qed.

Lemma runActions_listened (acts : list Action) (w : App) :
  (forall c, created w c -> listened w c = true) ->
  forall c, created (runActions acts w) c ->
            listened (runActions acts w) c = true.
Proof.
  revert w. induction acts as [|a acts IH]; intros w Hinv; [exact Hinv|].
  cbn [runActions fold_left]. apply IH. apply perform_listened. exact Hinv.
Qed.

Lemma emit_listened (c : Client) (ev : ClientEvent) (w : App) :
  listened w c = true ->
  exists tp, emit c ev w = listener c tp ev w.
Proof.
  unfold listened, emit, bind, get. intros H.
  destruct (find (fun l => Nat.eqb (fst l) c) (listeners w))
    as [[c' tp]|] eqn:E.
  - exists tp. reflexivity.
  - exfalso. apply existsb_exists in H as [l [Hin Hl]].
    pose proof (find_none _ _ E l Hin) as Hnone. cbv beta in Hnone.
    rewrite Hl in Hnone. discriminate Hnone.
Qed.

(** X9. Listeners are never taken off a client.  In every state the event
    loop can reach, a close or an offline event of any client that
    [mqtt.connect] has ever returned, the one held or one long replaced
    and handed to [end], lowers the connected flag and overwrites the
    status, and leaves the client held as it is. *)
Theorem replaced_client_still_heard (acts : list Action) (c : Client)
    (url : jsstring) :
  let w := runActions acts initialApp in
  In (MqttConnect url c) (libCalls w) ->
  stateOf (emit c Close w)
  = withStatus (lit "Connection closed") (withIsConnected false w)
  /\ stateOf (emit c Offline w)
     = withStatus (lit "Offline") (withIsConnected false w).
Proof.
  intros w Hin.
  assert (Hl : listened w c = true).
  { apply runActions_listened; [|exists url; exact Hin].
    intros c' [url' []]. }
  destruct (emit_listened c Close w Hl) as [tp1 E1].
  destruct (emit_listened c Offline w Hl) as [tp2 E2].
  rewrite E1, E2. split; reflexivity.
Qed.

(** The event loop connects twice; the close event of the first client,
    which arrives after the second one has connected, marks the component
    disconnected while the second client is held. *)
Lemma replaced_client_still_heard_witness :
  isConnected twoConnections = true
  /\ clientRef twoConnections = Some 2%nat
  /\ isConnected (stateOf (emit 0%nat Close twoConnections)) = false
  /\ status (stateOf (emit 0%nat Close twoConnections))
     = lit "Connection closed"
  /\ clientRef (stateOf (emit 0%nat Close twoConnections)) = Some 2%nat.
Proof.
  unfold twoConnections.
  assert (Hin : In (MqttConnect (lit "wss://broker.example.com") 0%nat)
                   (libCalls
                      (runActions
                         [TypeBrokerUrl (lit "wss://broker.example.com");
                          ClickConnect false; ClickConnect false;
                          Emit 2%nat Connected]
                         initialApp)))
    by (vm_compute; left; reflexivity).
  destruct (replaced_client_still_heard _ _ _ Hin) as [E _].
  rewrite E. vm_compute. repeat split.
Defined.

(* ================================================================= *)
(** ** The Test button *)

Lemma lit_cons (c : ascii) (s : string) : lit (String c s) = c :: lit s.
Proof. reflexivity. Qed.

Ltac digit_step IH :=
  match goal with
  | |- fold_left _ _ (?a * 10 + digitOr0 ?c) = Z.pos (Pos.of_uint_acc _ ?q) =>
      let v := eval vm_compute in (digitOr0 c) in
      change (digitOr0 c) with v;
      replace (a * 10 + v) with (Z.pos q) by lia;
      apply IH
  end.

(** The digits the decimal printer writes are digits to [Number], and
    they write the number printed. *)
Lemma uint_text_acc (d : Decimal.uint) (acc : positive) :
  fold_left (fun a c => a * 10 + digitOr0 c)
    (lit (DecimalString.NilEmpty.string_of_uint d)) (Z.pos acc)
  = Z.pos (Pos.of_uint_acc d acc).
Proof.
  revert acc. induction d as [|d IH|d IH|d IH|d IH|d IH|d IH|d IH|d IH|d IH|d IH];
    intros acc;
    cbn [DecimalString.NilEmpty.string_of_uint Pos.of_uint_acc];
    rewrite ?lit_cons; cbn [fold_left]; [reflexivity|digit_step IH..].
Qed.

Lemma uint_text_digits (d : Decimal.uint) :
  forallb isDigit (lit (DecimalString.NilEmpty.string_of_uint d)) = true.
Proof.
  induction d; cbn [DecimalString.NilEmpty.string_of_uint];
    rewrite ?lit_cons; cbn [forallb];
    [reflexivity|rewrite IHd; reflexivity..].
Qed.

Lemma uint_text_value (d : Decimal.uint) :
  digitsValue 10 (lit (DecimalString.NilEmpty.string_of_uint d))
  = Z.of_N (Pos.of_uint d).
Proof.
  unfold digitsValue.
  induction d as [|d IH|d IH|d IH|d IH|d IH|d IH|d IH|d IH|d IH|d IH];
    cbn [DecimalString.NilEmpty.string_of_uint Pos.of_uint Z.of_N];
    rewrite ?lit_cons; cbn [fold_left];
    [reflexivity|exact IH|apply uint_text_acc..].
Qed.

Lemma text_nonneg (n : Z) :
  0 <= n ->
  forallb isDigit (text n) = true
  /\ isEmpty (text n) = false
  /\ digitsValue 10 (text n) = n.
Proof.
  intros Hn. destruct n as [|p|p]; [repeat split| |lia].
  unfold text. cbn [Z.to_int DecimalString.NilZero.string_of_int].
  pose proof (DecimalPos.Unsigned.to_uint_nonnil p) as Hnil.
  destruct (Pos.to_uint p) as [|d|d|d|d|d|d|d|d|d|d] eqn:E;
    [contradiction|..];
    cbn [DecimalString.NilZero.string_of_uint]; rewrite <- E;
    (split; [apply uint_text_digits|]);
    (split; [rewrite E; reflexivity|]);
    rewrite uint_text_value, DecimalPos.Unsigned.of_to; reflexivity.
Qed.

(** Three well-written fields, each closed by a semicolon. *)
Lemma parseMessage_written (now : Date) (w : App)
    (fa fm fx : WrittenField) (rest : jsstring) :
  wellWritten fa -> wellWritten fm -> wellWritten fx ->
  hasKeywords
    (written fa ++ ";"%char :: written fm ++ ";"%char :: written fx
       ++ ";"%char :: rest) = true ->
  parseMessage now
    (written fa ++ ";"%char :: written fm ++ ";"%char :: written fx
       ++ ";"%char :: rest) w
  = Returned tt
      (withMessages
         (append (messages w)
            (sampleOf now (decimalNumber (number fa))
               (decimalNumber (number fm)) (decimalNumber (number fx)))) w).
Proof.
  intros Hfa Hfm Hfx Hk.
  set (message := written fa ++ ";"%char :: written fm ++ ";"%char
                    :: written fx ++ ";"%char :: rest) in *.
  destruct (written_clean fa Hfa) as [Ha _].
  destruct (written_clean fm Hfm) as [Hm _].
  destruct (written_clean fx Hfx) as [Hx _].
  assert (Hsplit : split message ";"
                   = written fa :: written fm :: written fx
                       :: split rest ";")
    by (apply split_three; assumption).
  assert (Ta : fieldText (split (toLowerCase message) ";") 0
               = Some (toLowerCase (decimalText (number fa)))).
  { rewrite fieldText_lowered, (fieldText_written fa);
      [reflexivity|exact Hfa|rewrite Hsplit; reflexivity]. }
  assert (Tm : fieldText (split (toLowerCase message) ";") 1
               = Some (toLowerCase (decimalText (number fm)))).
  { rewrite fieldText_lowered, (fieldText_written fm);
      [reflexivity|exact Hfm|rewrite Hsplit; reflexivity]. }
  assert (Tx : fieldText (split (toLowerCase message) ";") 2
               = Some (toLowerCase (decimalText (number fx)))).
  { rewrite fieldText_lowered, (fieldText_written fx);
      [reflexivity|exact Hfx|rewrite Hsplit; reflexivity]. }
  rewrite (parseMessage_fields now message w _ _ _ Hk Ta Tm Tx).
  destruct Hfa as [_ [_ [_ [_ Wa]]]]. destruct Hfm as [_ [_ [_ [_ Wm]]]].
  destruct Hfx as [_ [_ [_ [_ Wx]]]].
  rewrite !Number_decimalText by assumption.
  unfold allNumeric. rewrite !decimalNumber_not_NaN. reflexivity.
Qed.

Lemma testField_wellWritten (l : jsstring) (n : Z) :
  ~ In ";"%char l -> ~ In ","%char l -> 0 <= n ->
  wellWritten (testField l n)
  /\ decimalNumber (number (testField l n)) = numberOfZ n.
Proof.
  intros Hl1 Hl2 Hn. destruct (text_nonneg n Hn) as [Hd [Hne Hv]].
  split.
  - unfold wellWritten, testField, wellFormed, fracOf.
    cbn [label before after number intDigits fracDigits expPart
         wellFormedExponent]. rewrite Hd, Hne. repeat split; assumption.
  - unfold decimalNumber, testField, fracOf, decimalToDouble, numberOfZ.
    cbn [number litSign intDigits fracDigits expPart isMinus expValue
         List.length]. rewrite app_nil_r, Hv.
    change (0 <=? 0 - Z.of_nat 0) with true. cbv iota.
    change (10 ^ (0 - Z.of_nat 0)) with 1. rewrite Z.mul_1_r.
    rewrite Z.abs_eq by exact Hn.
    destruct (Z.ltb_spec n 0) as [Hneg|_]; [lia|reflexivity].
Qed.

Lemma testMessage_text (avgTest minTest maxTest : Z) :
  lit "Average, " ++ text avgTest ++ lit "; Min, " ++ text minTest
    ++ lit "; Max, " ++ text maxTest ++ lit ";"
  = written (testField (lit "Average") avgTest)
      ++ ";"%char :: written (testField (lit " Min") minTest)
      ++ ";"%char :: written (testField (lit " Max") maxTest)
      ++ ";"%char :: [].
Proof.
  unfold written, testField, decimalText.
  cbn [label before after number litSign intDigits fracDigits expPart
       signText fracText expText].
  rewrite !app_nil_r. cbn [app]. rewrite <- !app_assoc. reflexivity.
Qed.

(** X10. The Test button always adds a Sample.  Whatever non-negative
    integers below 2^53 the three draws give, the payload [testMessage]
    builds from them is accepted, and the Sample appended holds exactly
    those integers as its average, min and max. *)
Theorem testMessage_always_accepted (now : Date) (avgTest minTest maxTest : Z)
    (w : App) :
  0 <= avgTest < 2 ^ 53 -> 0 <= minTest < 2 ^ 53 -> 0 <= maxTest < 2 ^ 53 ->
  testMessage now avgTest minTest maxTest w
  = Returned tt
      (withMessages
         (append (messages w)
            (sampleOf now (numberOfZ avgTest) (numberOfZ minTest)
               (numberOfZ maxTest))) w)
  /\ (exists q, numberValue (numberOfZ avgTest) = Some q
                /\ (q == inject_Z avgTest)%Q)
  /\ (exists q, numberValue (numberOfZ minTest) = Some q
                /\ (q == inject_Z minTest)%Q)
  /\ (exists q, numberValue (numberOfZ maxTest) = Some q
                /\ (q == inject_Z maxTest)%Q).
Proof.
  intros Ha Hm Hx.
  split; [|repeat split; apply numberOfZ_exact; assumption].
  unfold testMessage. rewrite testMessage_text.
  destruct (testField_wellWritten (lit "Average") avgTest)
    as [Wa Na]; [vm_compute; intuition discriminate..|lia|].
  destruct (testField_wellWritten (lit " Min") minTest)
    as [Wm Nm]; [vm_compute; intuition discriminate..|lia|].
  destruct (testField_wellWritten (lit " Max") maxTest)
    as [Wx Nx]; [vm_compute; intuition discriminate..|lia|].
  rewrite (parseMessage_written now w _ _ _ [] Wa Wm Wx).
  - rewrite Na, Nm, Nx. reflexivity.
  - assert (Ka : includes
                   (toLowerCase (label (testField (lit "Average") avgTest)))
                   (lit "average") = true) by reflexivity.
    assert (Km : includes
                   (toLowerCase (label (testField (lit " Min") minTest)))
                   (lit "min") = true) by reflexivity.
    assert (Kx : includes
                   (toLowerCase (label (testField (lit " Max") maxTest)))
                   (lit "max") = true) by reflexivity.
    unfold hasKeywords, written. rewrite !andb_true_iff.
    split; [split|]; [find_keyword Ka|find_keyword Km|find_keyword Kx].
Qed.

Lemma testMessage_always_accepted_witness :
  testMessage 1000 109 30 199 initialApp
  = Returned tt
      (withMessages
         [sampleOf 1000 (numberOfZ 109) (numberOfZ 30) (numberOfZ 199)]
         initialApp).
Proof.
  assert (Ha : 0 <= 109 < 2 ^ 53) by lia.
  assert (Hm : 0 <= 30 < 2 ^ 53) by lia.
  assert (Hx : 0 <= 199 < 2 ^ 53) by lia.
  destruct (testMessage_always_accepted 1000 109 30 199 initialApp Ha Hm Hx)
    as [E _].
  rewrite E. reflexivity.
Defined.

(* ================================================================= *)
(** ** The ticks of the chart *)

Lemma numLt_asymmetric (x y : JSNumber) :
  numLt x y = true -> numLt y x = false.
Proof.
  destruct x as [|a|a m1 e1], y as [|b|b m2 e2]; cbn [numLt];
    try discriminate; try (destruct a; discriminate);
    try (destruct b; discriminate);
    try (destruct a, b; (discriminate || reflexivity)).
  destruct (fractionOf a m1 e1) as [n1 d1], (fractionOf b m2 e2) as [n2 d2].
  intros H. apply Z.ltb_lt in H. apply Z.ltb_ge. lia.
Qed.

(** [Math.min(b, Math.max(a, x))] for finite, non-zero [a] below [b]. *)
Lemma clamp_bounds (a b x : JSNumber) :
  isFinite a = true -> isFinite b = true ->
  isZero a = false -> isZero b = false ->
  numLt a b = true ->
  mathMin [b; mathMax [a; x]] = NaN
  \/ (numLe a (mathMin [b; mathMax [a; x]]) = true
      /\ numLe (mathMin [b; mathMax [a; x]]) b = true).
Proof.
  intros Fa Fb Za Zb Hab.
  destruct a as [| |na ma ea]; try discriminate Fa.
  destruct b as [| |nb mb eb]; try discriminate Fb.
  pose proof (numLt_asymmetric _ _ Hab) as Hba.
  assert (Haa : numLt (Finite na ma ea) (Finite na ma ea) = false).
  { cbn [numLt]. destruct (fractionOf na ma ea). apply Z.ltb_irrefl. }
  assert (Hbb : numLt (Finite nb mb eb) (Finite nb mb eb) = false).
  { cbn [numLt]. destruct (fractionOf nb mb eb). apply Z.ltb_irrefl. }
  unfold mathMin, mathMax. cbn [fold_left].
  assert (E1 : maxStep (Infinity true) (Finite na ma ea) = Finite na ma ea).
  { unfold maxStep. cbn [isNaN orb isZero isNegative numLt] in *.
    rewrite Za. reflexivity. }
  assert (E2 : minStep (Infinity false) (Finite nb mb eb) = Finite nb mb eb).
  { unfold minStep. cbn [isNaN orb isZero isNegative numLt negb andb] in *.
    rewrite Zb. reflexivity. }
  rewrite E1, E2.
  assert (Hy : maxStep (Finite na ma ea) x = NaN
               \/ maxStep (Finite na ma ea) x = Finite na ma ea
               \/ (maxStep (Finite na ma ea) x = x
                   /\ numLt (Finite na ma ea) x = true)).
  { unfold maxStep. cbn [isNaN orb]. destruct (isNaN x) eqn:Nx; [tauto|].
    cbn [isZero] in *. rewrite Za, !andb_false_r.
    destruct (numLt (Finite na ma ea) x) eqn:L; tauto. }
  destruct Hy as [Ey|[Ey|[Ey Lx]]]; rewrite Ey.
  - left. reflexivity.
  - right. unfold minStep, numLe. cbn [isNaN orb isZero] in *.
    rewrite Zb, !andb_false_r, Hab. cbn [isNaN negb andb].
    rewrite Haa, Hba. split; reflexivity.
  - assert (Nx : isNaN x = false)
      by (destruct x; [discriminate Lx|reflexivity..]).
    assert (Em : minStep (Finite nb mb eb) x
                 = if numLt x (Finite nb mb eb) then x else Finite nb mb eb).
    { unfold minStep. replace (isNaN (Finite nb mb eb)) with false
        by reflexivity.
      rewrite Nx. cbn [orb]. rewrite Zb, !andb_false_r. reflexivity. }
    rewrite Em. right. unfold numLe.
    destruct (numLt x (Finite nb mb eb)) eqn:Lb.
    + rewrite Nx. cbn [isNaN negb andb].
      rewrite (numLt_asymmetric _ _ Lx), (numLt_asymmetric _ _ Lb).
      split; reflexivity.
    + cbn [isNaN negb andb]. rewrite Hba, Hbb. split; reflexivity.
Qed.

Lemma allValues_repeat (s : Sample) (k : nat) :
  isFinite (min s) = true -> isFinite (max s) = true ->
  isFinite (average s) = true ->
  List.length (allValues (repeat s k)) = (3 * k)%nat.
Proof.
  intros Hm Hx Ha. unfold allValues.
  induction k as [|k IH]; [reflexivity|].
  cbn [repeat flat_map app filter]. rewrite Hm, Hx, Ha.
  cbn [List.length]. rewrite IH. lia.
Qed.

(** X11. The number of ticks that [SoundChart] asks for.  When the data
    has more finite fields than the engine takes arguments,
    [Math.min(...allValues)] throws a RangeError and the component
    computes nothing; a long enough series does that on any engine.
    Otherwise the number of ticks is a Number from 6 to 20 whenever it
    is a number at all; it is 6 when no field of the data is finite, an
    empty series included; and it can be NaN: one accepted payload whose
    values are about 1e308 makes both ends of the padded domain overflow
    to Infinity, and their difference is NaN. *)
Theorem tickCount_bounds (limit : nat) (data : list Sample) :
  ((limit < List.length (allValues data))%nat ->
   minY limit data = RangeError /\ tickCount limit data = RangeError)
  /\ ((List.length (allValues data) <= limit)%nat ->
      exists t,
        tickCount limit data = Normal t
        /\ (t = NaN
            \/ (numLe (numberOfZ 6) t = true
                /\ numLe t (numberOfZ 20) = true)))
  /\ (allValues data = [] -> tickCount limit data = Normal (numberOfZ 6))
  /\ (forall s,
        isFinite (min s) = true -> isFinite (max s) = true ->
        isFinite (average s) = true ->
        tickCount limit (repeat s (S limit)) = RangeError)
  /\ ((3 <= limit)%nat ->
      tickCount limit
        (emitted 0 (lit "Average, 1e308; Min, 1e308; Max, 1e308;"))
      = Normal NaN).
Proof.
  assert (Hover : forall d, (limit < List.length (allValues d))%nat ->
            minY limit d = RangeError /\ tickCount limit d = RangeError).
  { intros d H. unfold tickCount, minY, spreadCall.
    destruct (Nat.leb_spec (List.length (allValues d)) limit); [lia|].
    split; reflexivity. }
  assert (Hfit : forall d, (List.length (allValues d) <= limit)%nat ->
            tickCount limit d
            = Normal (ticks (domainMin (mathMin (allValues d)))
                            (domainMax (mathMax (allValues d))))).
  { intros d H. unfold tickCount, minY, maxY, spreadCall.
    destruct (Nat.leb_spec (List.length (allValues d)) limit); [|lia].
    reflexivity. }
  split; [apply Hover|]. split; [|split; [|split]].
  - intros H. rewrite (Hfit data H). eexists. split; [reflexivity|].
    unfold ticks. apply clamp_bounds; reflexivity.
  - intros H. rewrite Hfit by (rewrite H; cbn; lia). rewrite H.
    vm_compute. reflexivity.
  - intros s Hm Hx Ha. apply Hover.
    rewrite (allValues_repeat s (S limit) Hm Hx Ha). lia.
  - intros H. rewrite Hfit by (vm_compute; exact H).
    vm_compute. reflexivity.
Qed.

Lemma tickCount_bounds_witness :
  tickCount 2 (emitted 0 (lit "Average, 95; Min, 40; Max, 150;"))
  = RangeError
  /\ tickCount 3 (emitted 0 (lit "Average, 95; Min, 40; Max, 150;"))
     = Normal (numberOfZ 20)
  /\ tickCount 3 [] = Normal (numberOfZ 6)
  /\ tickCount 3 (emitted 0 (lit "Average, 1e308; Min, 1e308; Max, 1e308;"))
     = Normal NaN.
Proof.
  split; [|split; [|split]].
  - destruct (tickCount_bounds 2
                (emitted 0 (lit "Average, 95; Min, 40; Max, 150;")))
      as [H _].
    apply H. vm_compute. lia.
  - vm_compute. reflexivity.
  - destruct (tickCount_bounds 3 []) as [_ [_ [H _]]]. exact (H eq_refl).
  - destruct (tickCount_bounds 3 []) as [_ [_ [_ [_ H]]]].
    apply H. lia.
Defined.

(* ================================================================= *)
(** ** Times along a run of the event loop *)

Lemma perform_times (a : Action) (w : App) :
  map time (messages (stateOf (perform a w))) = map time (messages w)
  \/ exists now,
       clockReading a = [now]
       /\ map time (messages (stateOf (perform a w)))
          = map time (messages w) ++ [now].
Proof.
  assert (Hparse : forall now message v,
            messages v = messages w ->
            map time (messages (stateOf (parseMessage now message v)))
            = map time (messages w)
            \/ map time (messages (stateOf (parseMessage now message v)))
               = map time (messages w) ++ [now]).
  { intros now message v Hv. rewrite parseMessage_state. cbn. rewrite Hv.
    destruct (emitted_shape now message) as [E|[s [E [Ht _]]]]; rewrite E.
    - left. rewrite app_nil_r. reflexivity.
    - right. rewrite map_app. cbn. rewrite Ht. reflexivity. }
  destruct a as [v|v|endThrows|endThrows|now a m x|c ev].
  - left. reflexivity.
  - left. reflexivity.
  - left. cbn [perform].
    destruct (startsWith (brokerUrl w) (lit "wss://")) eqn:Hurl.
    + destruct (connect_secure_eq endThrows w Hurl) as [w' [E [_ [_ Hm]]]].
      rewrite E. cbn [stateOf]. rewrite Hm. reflexivity.
    + rewrite (connect_insecure_eq endThrows w Hurl). reflexivity.
  - left. cbn [perform]. rewrite disconnect_eq.
    destruct (clientRef w); reflexivity.
  - cbn [perform]. unfold testMessage.
    destruct (Hparse now
                (lit "Average, " ++ text a ++ lit "; Min, " ++ text m
                   ++ lit "; Max, " ++ text x ++ lit ";") w eq_refl)
      as [E|E]; [left; exact E|right; exists now; split; [reflexivity|exact E]].
  - cbn [perform]. unfold emit, bind, get.
    destruct (find (fun l => Nat.eqb (fst l) c) (listeners w)) as [[c' tp]|];
      [|left; reflexivity].
    destruct ev as [|[err|]| | | |err|msgTopic payload received parsed];
      try (left; reflexivity).
    cbn [listener]. unfold bind, setLatestTopic, setLatestTime,
      setLatestRaw, modify.
    match goal with
    | |- context [parseMessage parsed ?raw ?v] =>
        destruct (Hparse parsed raw v eq_refl) as [E|E]
    end; [left; exact E|right; exists parsed; split; [reflexivity|exact E]].
Qed.

Lemma StronglySorted_snoc (l : list Z) (r : Z) :
  StronglySorted Z.le l -> Forall (fun t => t <= r) l ->
  StronglySorted Z.le (l ++ [r]).
Proof.
  induction 1 as [|t l Hs IH Hall]; intros Hr; cbn.
  - constructor; constructor.
  - inversion Hr; subst. constructor; [apply IH; assumption|].
    apply Forall_app. split; [exact Hall|]. constructor; [assumption|].
    constructor.
Qed.

Lemma runActions_times (acts : list Action) (w : App) :
  StronglySorted Z.le (flat_map clockReading acts) ->
  StronglySorted Z.le (map time (messages w)) ->
  (forall t r, In t (map time (messages w)) ->
               In r (flat_map clockReading acts) -> t <= r) ->
  StronglySorted Z.le (map time (messages (runActions acts w))).
Proof.
  revert w. induction acts as [|a acts IH]; intros w Hclock Hsorted Hbelow;
    [exact Hsorted|].
  cbn [runActions fold_left]. cbn [flat_map] in Hclock, Hbelow.
  destruct (perform_times a w) as [E|[now [Ea E]]].
  - apply IH.
    + assert (Hshort : clockReading a = []
                       \/ exists r, clockReading a = [r]).
      { destruct a as [| | | |? ? ? ?|? ev]; try (left; reflexivity);
          [right; eexists; reflexivity|].
        destruct ev; try (left; reflexivity). right. eexists. reflexivity. }
      destruct Hshort as [Er|[r Er]]; rewrite Er in Hclock;
        [exact Hclock|].
      inversion Hclock; assumption.
    + rewrite E. exact Hsorted.
    + rewrite E. intros t r Ht Hr. apply Hbelow; [exact Ht|].
      apply in_or_app. right. exact Hr.
  - rewrite Ea in Hclock, Hbelow. cbn [app] in Hclock, Hbelow.
    inversion Hclock as [|r rs Hrs Hall]; subst.
    apply IH.
    + exact Hrs.
    + rewrite E. apply StronglySorted_snoc; [exact Hsorted|].
      apply Forall_forall. intros t Ht. apply Hbelow; [exact Ht|].
      left. reflexivity.
    + rewrite E. intros t r Ht Hr. apply in_app_or in Ht as [Ht|[<-|[]]].
      * apply Hbelow; [exact Ht|]. right. exact Hr.
      * rewrite Forall_forall in Hall. apply Hall. exact Hr.
Qed.

(** X12. Along every run of the event loop, test clicks, messages,
    connections and disconnections in any order, the times of the series
    never decrease, provided the clock readings handed to [parseMessage]
    by the successive clicks and messages do not decrease. *)
Theorem series_sorted_along_run (acts : list Action) :
  Sorted Z.le (flat_map clockReading acts) ->
  StronglySorted Z.le (map time (messages (runActions acts initialApp))).
Proof.
  intros Hclock. apply runActions_times.
  - apply Sorted_StronglySorted; [|exact Hclock].
    intros x y z. apply Z.le_trans.
  - constructor.
  - intros t r [].
Qed.

Lemma series_sorted_along_run_witness :
  Sorted Z.le (flat_map clockReading scenarioRun)
  /\ StronglySorted Z.le
       (map time (messages (runActions scenarioRun initialApp)))
  /\ map time (messages (runActions scenarioRun initialApp)) = [5; 8; 12].
Proof.
  assert (Hclock : Sorted Z.le (flat_map clockReading scenarioRun))
    by (cbn; repeat constructor; lia).
  split; [exact Hclock|]. split.
  - exact (series_sorted_along_run scenarioRun Hclock).
  - vm_compute. reflexivity.
Defined.
